(** * users-api: the token guard and the owner-scoped CRUD handlers

    A shallow embedding of the two Express route modules of the repository:
    the owner-scoped module (module [Scoped] below) and the older module
    without owner scoping ([Unscoped], src/api/index.js).

    Layout:
    - [Js]        the JavaScript primitives the handlers call
                  (truthiness, [ToString], [parseInt], [split]);
    - [Validator] the express-validator chains of POST and PUT /users;
    - [Http]      JSON values and responses;
    - [Column], [Prisma]  the two tables with the types of their columns,
                  the client calls and their errors;
    - [Async]     handlers as trees of awaited store calls, with a
                  sequential and an interleaved interpreter;
    - [Scoped], [Unscoped]  the route handlers;
    - the properties.

    Modelling scope.  Numbers are integers ([Z], [NaN] is [None]); a
    string is the sequence of bytes of its UTF-8 encoding; the fields of a
    request body are JSON scalars; the store is an in-memory pair of
    tables that fails only with the errors Prisma raises for the data it
    is given (P2025, P2002, a key outside the range of its column, and
    the errors without a code: ill-typed arguments and text the database
    does not store), never for infrastructure reasons. *)

From Stdlib Require Import ZArith Ascii Lia.
From stdpp Require Import base option strings list gmap pretty.

Open Scope Z_scope.

(* ===================================================================== *)
(** ** JavaScript primitives *)
(* ===================================================================== *)

Module Js.

(** A JSON scalar as it arrives in [req.body]; [undefined] is [None] of
    [option JsValue]. *)
Inductive JsValue : Type :=
| VNull
| VBool (b : bool)
| VNum (n : Z)
| VStr (s : string).

#[export] Instance JsValue_eq_dec : EqDecision JsValue.
Proof. solve_decision. Defined.

(** A number that may be [NaN], the result type of [parseInt]; the
    handlers' [isNaN(id)] is the case [None]. *)
Definition JsNumber : Type := option Z.

(** [!!v] of JavaScript. *)
Definition truthy (v : option JsValue) : bool :=
  match v with
  | None | Some VNull => false
  | Some (VBool b) => b
  | Some (VNum n) => negb (n =? 0)
  | Some (VStr s) => negb (bool_decide (s = ""))
  end.

(** [String(v)], the conversion [parseInt] applies to its argument. *)
Definition ToString (v : option JsValue) : string :=
  match v with
  | None => "undefined"
  | Some VNull => "null"
  | Some (VBool true) => "true"
  | Some (VBool false) => "false"
  | Some (VNum n) => pretty n
  | Some (VStr s) => s
  end.

(** The white space and line terminators [parseInt] skips
    (StrWhiteSpaceChar), by the length of their UTF-8 encoding.  One byte:
    tab, line feed, vertical tab, form feed, carriage return and space. *)
Definition isWhiteSpace (c : ascii) : bool :=
  let n := Ascii.N_of_ascii c in
  ((9 <=? n) && (n <=? 13) || (n =? 32))%N.

(** Two bytes: U+00A0, the no-break space. *)
Definition isWhiteSpace2 (a b : ascii) : bool :=
  ((Ascii.N_of_ascii a =? 194) && (Ascii.N_of_ascii b =? 160))%N.

(** Three bytes: U+1680, U+2000 to U+200A, the separators U+2028 and
    U+2029, U+202F, U+205F, U+3000 and the byte order mark U+FEFF. *)
Definition isWhiteSpace3 (a b c : ascii) : bool :=
  let a := Ascii.N_of_ascii a in
  let b := Ascii.N_of_ascii b in
  let c := Ascii.N_of_ascii c in
  ((a =? 225) && (b =? 154) && (c =? 128)
   || (a =? 226) && (b =? 128)
      && ((128 <=? c) && (c <=? 138) || (c =? 168) || (c =? 169) || (c =? 175))
   || (a =? 226) && (b =? 129) && (c =? 159)
   || (a =? 227) && (b =? 128) && (c =? 128)
   || (a =? 239) && (b =? 187) && (c =? 191))%N.

Definition digit (c : ascii) : option Z :=
  let n := Ascii.N_of_ascii c in
  if ((48 <=? n) && (n <=? 57))%N then Some (Z.of_N n - 48) else None.

Fixpoint trimStart (s : string) : string :=
  match s with
  | String.String a r =>
      if isWhiteSpace a then trimStart r
      else
        match r with
        | String.String b r2 =>
            if isWhiteSpace2 a b then trimStart r2
            else
              match r2 with
              | String.String c r3 =>
                  if isWhiteSpace3 a b c then trimStart r3 else s
              | EmptyString => s
              end
        | EmptyString => s
        end
  | EmptyString => s
  end.

(** The longest prefix of decimal digits, read as a number; [acc] is the
    value read so far, [None] when no digit has been seen yet. *)
Fixpoint digits (acc : JsNumber) (s : string) : JsNumber :=
  match s with
  | String.String c r =>
      match digit c with
      | Some d => digits (Some (10 * default 0 acc + d)) r
      | None => acc
      end
  | EmptyString => acc
  end.

(** [parseInt(s, 10)]: leading white space, an optional sign, then the
    longest run of digits; what follows is ignored, and without a digit
    the result is [NaN]. *)
Definition parseInt (s : string) : JsNumber :=
  match trimStart s with
  | String.String "-" r => Z.opp <$> digits None r
  | String.String "+" r => digits None r
  | r => digits None r
  end.

(** [s.split(sep)] for a one-character separator. *)
Fixpoint split (sep : ascii) (s : string) : list string :=
  match s with
  | EmptyString => [""]
  | String.String c r =>
      if Ascii.eqb c sep then "" :: split sep r
      else match split sep r with
           | h :: t => String.String c h :: t
           | [] => [String.String c ""]
           end
  end.

(** [age >= 18] on a number that may be [NaN]: every comparison with
    [NaN] is false. *)
Definition ge (a : JsNumber) (b : Z) : bool :=
  match a with Some n => b <=? n | None => false end.

End Js.
Export Js.

(* ===================================================================== *)
(** ** JSON and responses *)
(* ===================================================================== *)

Module Http.

#[local] Unset Elimination Schemes.
Inductive Json : Type :=
| JNull
| JBool (b : bool)
| JNum (n : Z)
| JStr (s : string)
| JArr (items : list Json)
| JObj (fields : list (string * Json)).
#[local] Set Elimination Schemes.

(** What [res.status(..).json(..)] or [res.status(..).send()] sends. *)
Record Response : Type := { status : Z; body : option Json }.

(** [res.status(code).json(j)] *)
Definition json (code : Z) (j : Json) : Response :=
  {| status := code; body := Some j |}.

(** [res.status(code).send()] *)
Definition send (code : Z) : Response :=
  {| status := code; body := None |}.

(** [{ message: m }] *)
Definition message (m : string) : Json := JObj [("message", JStr m)].

Definition ofValue (v : JsValue) : Json :=
  match v with
  | VNull => JNull
  | VBool b => JBool b
  | VNum n => JNum n
  | VStr s => JStr s
  end.

End Http.
Export Http.

(** The parsed JSON object [req.body]: a key that is absent reads as
    [undefined]. *)
Abbreviation Body := (gmap string JsValue).

(** The payload [jwt.sign] is given at login and [jwt.verify] hands back,
    stored by the guard in [req.user]. *)
Module Identity.
Record t : Type := { id : Z; email : string }.
End Identity.

(** What reaches a handler: the [Authorization] header, the [:id] path
    parameter (the empty string on routes without one) and the body. *)
Module Request.
Record t : Type :=
  { authorization : option string; id : string; body : Body }.
End Request.

(** The library functions the routes call and the model leaves abstract:
    [isEmail] of validator.js, bcrypt's [hash] (cost 10, with the salt it
    draws) and [compare], and jsonwebtoken's [sign] and [verify] under the
    process-wide [JWT_SECRET] and the clock; [jwt_sign] takes the payload
    and the [expiresIn] option, [jwt_verify] yields the payload or fails. *)
Class Collaborators : Type :=
  { isEmail : string → bool;
    bcrypt_hash : string → string;
    bcrypt_compare : string → string → bool;
    jwt_sign : Identity.t → string → string;
    jwt_verify : string → option Identity.t }.

(* ===================================================================== *)
(** ** express-validator chains *)
(* ===================================================================== *)

(** The validators as express-validator 6 runs them (its errors carry
    [param], as the OpenAPI annotations of the routes say): standard
    validators see the value as a string, every validator of a chain runs,
    and [.withMessage] names the message of the validator before it. *)
Module Validator.

(** The string a standard validator is run on: [undefined] and [null]
    become the empty string, anything else goes through [String]. *)
Definition toString (v : option JsValue) : string :=
  match v with
  | None | Some VNull => ""
  | _ => ToString v
  end.

Fixpoint allDigits (s : string) : bool :=
  match s with
  | String.String c r =>
      match digit c with
      | Some _ => match r with EmptyString => true | _ => allDigits r end
      | None => false
      end
  | EmptyString => false
  end.

(** The value of [s] when the whole of it is an optional sign followed by
    at least one digit (the expression [^[-+]?[0-9]+$]). *)
Definition numeral (s : string) : JsNumber :=
  let unsigned r := if allDigits r then digits None r else None in
  match s with
  | String.String "-" r => Z.opp <$> unsigned r
  | String.String "+" r => unsigned r
  | _ => unsigned s
  end.

(** [isInt({ min, max })] *)
Definition isInt (min max : Z) (v : option JsValue) : bool :=
  match numeral (toString v) with
  | Some n => (min <=? n) && (n <=? max)
  | None => false
  end.

(** [isIn(values)] *)
Definition isIn (values : list string) (v : option JsValue) : bool :=
  bool_decide (toString v ∈ values).

(** [isString()]: a test on the value itself, not on its string. *)
Definition isString (v : option JsValue) : bool :=
  match v with Some (VStr _) => true | _ => false end.

(** [notEmpty()] *)
Definition notEmpty (v : option JsValue) : bool :=
  negb (bool_decide (toString v = "")).

(** [.optional(..)]: which values make the chain skip the field. *)
Inductive Optional : Type :=
| Mandatory            (* no [.optional()] *)
| IfUndefined          (* [.optional()] *)
| IfNullable           (* [.optional({ nullable: true })] *)
| IfFalsy.             (* [.optional({ checkFalsy: true })] *)

Definition skipped (o : Optional) (v : option JsValue) : bool :=
  match o with
  | Mandatory => false
  | IfUndefined => bool_decide (v = None)
  | IfNullable => bool_decide (v = None ∨ v = Some VNull)
  | IfFalsy => negb (truthy v)
  end.

(** One validator of a chain with the message that [.withMessage]
    attaches to it, ["Invalid value"] when there is none. *)
Record Check : Type := { test : option JsValue → bool; msg : string }.

Record Chain : Type :=
  { field : string; optional : Optional; checks : list Check }.

(** An entry of [errors.array()]. *)
Definition error (c : Chain) (v : option JsValue) (k : Check) : Json :=
  JObj (match v with Some x => [("value", ofValue x)] | None => [] end
        ++ [("msg", JStr (msg k)); ("param", JStr (field c));
            ("location", JStr "body")]).

(** Every validator of the chain runs; each one that fails adds its own
    error. *)
Definition runChain (c : Chain) (b : Body) : list Json :=
  let v := b !! field c in
  if skipped (optional c) v then []
  else omap (λ k, if test k v then None else Some (error c v k)) (checks c).

(** [validationResult(req).array()] for the chains of a route. *)
Definition validationResult (chains : list Chain) (b : Body) : list Json :=
  chains ≫= (λ c, runChain c b).

Section Chains.
Context `{Collaborators}.

(** The four chains of POST and PUT /users; only [.optional(..)]
    differs from route to route. *)
Definition chains (name email age role : Optional) : list Chain :=
  [ {| field := "name"; optional := name;
       checks := [ {| test := isString; msg := "Invalid value" |};
                   {| test := notEmpty; msg := "Name is required" |} ] |};
    {| field := "email"; optional := email;
       checks := [ {| test := notEmpty; msg := "Email is required" |};
                   {| test := λ v, isEmail (toString v);
                      msg := "Valid email format is required" |} ] |};
    {| field := "age"; optional := age;
       checks := [ {| test := isInt 0 125;
                      msg := "Age must be between 0 and 125" |} ] |};
    {| field := "role"; optional := role;
       checks := [ {| test := isIn ["admin"; "user"];
                      msg := "Role must be admin or user" |} ] |} ].
End Chains.

End Validator.

(* ===================================================================== *)
(** ** The store behind the Prisma client *)
(* ===================================================================== *)

(** What the columns of the two tables hold: Prisma's [Int] is INTEGER in
    PostgreSQL, its [String] is TEXT, as in the migrations under
    src/prisma. *)
Module Column.

(** An INTEGER or SERIAL column is INT4. *)
Definition int4 (z : Z) : bool := (-2147483648 <=? z) && (z <=? 2147483647).

(** A TEXT column holds no U+0000. *)
Fixpoint text (s : string) : bool :=
  match s with
  | String.String c r => negb (Ascii.eqb c "000") && text r
  | EmptyString => true
  end.

End Column.
Export Column.

(** A row of table "User", the resource record.  Its id is a value of
    the id column, INTEGER like [ownerId] and the id of "AuthUser" in the
    migrations: no row has a key outside that range. *)
Module User.
Record t : Type :=
  { id : Z; name : string; email : string; age : Z; role : string;
    adult : bool; ownerId : Z; id_int4 : Is_true (int4 id) }.

#[export] Instance eq_dec : EqDecision t.
Proof.
  intros [i1 n1 e1 a1 r1 d1 o1 H1] [i2 n2 e2 a2 r2 d2 o2 H2].
  destruct (decide (i1 = i2)) as [<-|]; [|right; intros [= ?]; done].
  destruct (decide (n1 = n2)) as [<-|]; [|right; intros [= ?]; done].
  destruct (decide (e1 = e2)) as [<-|]; [|right; intros [= ?]; done].
  destruct (decide (a1 = a2)) as [<-|]; [|right; intros [= ?]; done].
  destruct (decide (r1 = r2)) as [<-|]; [|right; intros [= ?]; done].
  destruct (decide (d1 = d2)) as [<-|]; [|right; intros [= ?]; done].
  destruct (decide (o1 = o2)) as [<-|]; [|right; intros [= ?]; done].
  left. f_equal. apply proof_irrel.
Defined.

Definition toJson (u : t) : Json :=
  JObj [("id", JNum (id u)); ("name", JStr (name u));
        ("email", JStr (email u)); ("age", JNum (age u));
        ("role", JStr (role u)); ("adult", JBool (adult u));
        ("ownerId", JNum (ownerId u))].
End User.

(** A row of table "AuthUser", the account. *)
Module AuthUser.
Record t : Type := { id : Z; email : string; passwordHash : string }.

#[export] Instance eq_dec : EqDecision t.
Proof. solve_decision. Defined.
End AuthUser.

(** The [data] object of [prisma.user.create]: the handler passes the body
    fields as they came and the connected owner. *)
Module UserCreateInput.
Record t : Type :=
  { name : option JsValue; email : option JsValue; age : JsNumber;
    role : option JsValue; adult : bool; owner : Z }.
End UserCreateInput.

(** The [data] object of [prisma.user.update]; [None] is a key that was
    never assigned. *)
Module UserUpdateInput.
Record t : Type :=
  { name : option JsValue; email : option JsValue; age : option JsNumber;
    role : option JsValue; adult : option bool }.

Definition empty : t :=
  {| name := None; email := None; age := None; role := None;
     adult := None |}.
End UserUpdateInput.

Module Prisma.

(** What a handler inspects of a caught error: [err.code]. *)
Record Error : Type := { code : option string }.

(** "Record to update/delete/connect not found." *)
Definition P2025 : Error := {| code := Some "P2025" |}.
(** "Unique constraint failed." *)
Definition P2002 : Error := {| code := Some "P2002" |}.
(** "Value out of range for the type": a key that is no INT4.  Of the
    code the handlers ask only whether it is P2025. *)
Definition P2020 : Error := {| code := Some "P2020" |}.
(** An error without a [code]: the client's validation error for
    ill-typed arguments, and the database's refusal of a text with
    U+0000, which the client hands on as an unknown request error. *)
Definition ValidationError : Error := {| code := None |}.

Inductive Result (A : Type) : Type :=
| Ok (a : A)
| Throw (e : Error).
Arguments Ok {A} a.
Arguments Throw {A} e.

(** The two tables and their SERIAL counters.  A table lists its rows as
    the database returns them to a query without [orderBy], and no route
    has one: a new row comes last, and so does the new version of a row
    that was updated. *)
Record Db : Type :=
  { users : list User.t; authUsers : list AuthUser.t;
    userSeq : Z; authUserSeq : Z }.

Definition empty : Db :=
  {| users := []; authUsers := []; userSeq := 1; authUserSeq := 1 |}.

(** An INSERT that fails on the unique index has drawn its id from the
    sequence all the same. *)
Definition skipAuthUserId (db : Db) : Db :=
  {| users := users db; authUsers := authUsers db;
     userSeq := userSeq db; authUserSeq := authUserSeq db + 1 |}.

Definition withUsers (db : Db) (us : list User.t) : Db :=
  {| users := us; authUsers := authUsers db;
     userSeq := userSeq db; authUserSeq := authUserSeq db |}.

(** The calls of [prisma.user] and [prisma.authUser] the routes make,
    indexed by what they resolve to. *)
Inductive Call : Type → Type :=
| user_findMany (ownerId : option Z) : Call (list User.t)
| user_findFirst (id ownerId : Z) : Call (option User.t)
| user_findUnique (id : Z) : Call (option User.t)
| user_create (data : UserCreateInput.t) : Call User.t
| user_update (id : Z) (data : UserUpdateInput.t) : Call User.t
| user_delete (id : Z) : Call User.t
| user_deleteMany (ownerId : option Z) : Call Z
| authUser_findUnique (email : option JsValue) : Call (option AuthUser.t)
| authUser_create (email : option JsValue) (passwordHash : string)
    : Call AuthUser.t.

Definition callName {X} (c : Call X) : string :=
  match c with
  | user_findMany _ => "user.findMany"
  | user_findFirst _ _ => "user.findFirst"
  | user_findUnique _ => "user.findUnique"
  | user_create _ => "user.create"
  | user_update _ _ => "user.update"
  | user_delete _ => "user.delete"
  | user_deleteMany _ => "user.deleteMany"
  | authUser_findUnique _ => "authUser.findUnique"
  | authUser_create _ _ => "authUser.create"
  end.

Definition isWrite {X} (c : Call X) : bool :=
  match c with
  | user_create _ | user_update _ _ | user_delete _ | user_deleteMany _
  | authUser_create _ _ => true
  | _ => false
  end.

(** A String argument is a string and nothing else. *)
Definition asString (v : option JsValue) : option string :=
  match v with Some (VStr s) => Some s | _ => None end.

(** A string to be stored in a TEXT column. *)
Definition asText (v : option JsValue) : option string :=
  s ← asString v; if text s then Some s else None.

(** [where: { ownerId }], or no [where] at all. *)
Definition owned (w : option Z) (u : User.t) : bool :=
  match w with
  | Some o => bool_decide (User.ownerId u = o)
  | None => true
  end.

Definition hasId (i : Z) (u : User.t) : bool := bool_decide (User.id u = i).

Definition byEmail (e : string) (a : AuthUser.t) : bool :=
  bool_decide (AuthUser.email a = e).

(** The row [create] inserts under the id [i] drawn from the sequence,
    when every field has its column's type and the id is still one of the
    column. *)
Definition newRow (i : Z) (d : UserCreateInput.t) : option User.t :=
  n ← asText (UserCreateInput.name d);
  e ← asText (UserCreateInput.email d);
  a ← UserCreateInput.age d;
  r ← asText (UserCreateInput.role d);
  match decide (Is_true (int4 i)) with
  | left Hi =>
      Some {| User.id := i; User.name := n; User.email := e; User.age := a;
              User.role := r; User.adult := UserCreateInput.adult d;
              User.ownerId := UserCreateInput.owner d; User.id_int4 := Hi |}
  | right _ => None
  end.

(** A field of [update]'s data: absent keeps the column, present must
    have the column's type. *)
Definition setString (old : string) (v : option JsValue) : option string :=
  match v with
  | None => Some old
  | Some _ => asText v
  end.

Definition setAge (old : Z) (v : option JsNumber) : option Z :=
  match v with
  | None => Some old
  | Some n => n
  end.

Definition patch (d : UserUpdateInput.t) (u : User.t) : option User.t :=
  n ← setString (User.name u) (UserUpdateInput.name d);
  e ← setString (User.email u) (UserUpdateInput.email d);
  a ← setAge (User.age u) (UserUpdateInput.age d);
  r ← setString (User.role u) (UserUpdateInput.role d);
  Some {| User.id := User.id u; User.name := n; User.email := e;
          User.age := a; User.role := r;
          User.adult := default (User.adult u) (UserUpdateInput.adult d);
          User.ownerId := User.ownerId u; User.id_int4 := User.id_int4 u |}.

(** Whether the data of an update can be stored does not depend on the
    row. *)
Definition wellTyped (d : UserUpdateInput.t) : bool :=
  bool_decide (is_Some (setString "" (UserUpdateInput.name d)))
  && bool_decide (is_Some (setString "" (UserUpdateInput.email d)))
  && bool_decide (is_Some (setAge 0 (UserUpdateInput.age d)))
  && bool_decide (is_Some (setString "" (UserUpdateInput.role d))).

(** The new version of a row under [update]. *)
Definition updated (d : UserUpdateInput.t) (u : User.t) : User.t :=
  default u (patch d u).

(** [data: {}]: with no column to set, [update] writes nothing and reads
    the row. *)
Definition nothingToSet (d : UserUpdateInput.t) : bool :=
  match UserUpdateInput.name d, UserUpdateInput.email d,
        UserUpdateInput.age d, UserUpdateInput.role d,
        UserUpdateInput.adult d with
  | None, None, None, None, None => true
  | _, _, _, _, _ => false
  end.

(** One call against the store: what it resolves to or throws, and the
    store after it.  A key of [where: { id }] that is no INT4 makes the
    query engine raise P2020, where a key of the column that no row has
    is answered with no row, or with P2025 when a row is required.  (The
    owner key of a query is the id of a verified token, which the routes
    sign for accounts only; it is an id of the column.) *)
Definition exec {X} (c : Call X) (db : Db) : Result X * Db :=
  match c in Call X return Result X * Db with
  | user_findMany w => (Ok (filter (λ u, owned w u) (users db)), db)
  | user_findFirst i o =>
      if int4 i
      then (Ok (head (filter (λ u, hasId i u && owned (Some o) u) (users db))),
            db)
      else (Throw P2020, db)
  | user_findUnique i =>
      if int4 i
      then (Ok (head (filter (λ u, hasId i u) (users db))), db)
      else (Throw P2020, db)
  | user_create d =>
      match newRow (userSeq db) d with
      | None => (Throw ValidationError, db)
      | Some row =>
          if bool_decide (UserCreateInput.owner d ∈ AuthUser.id <$> authUsers db)
          then (Ok row,
                {| users := users db ++ [row]; authUsers := authUsers db;
                   userSeq := userSeq db + 1;
                   authUserSeq := authUserSeq db |})
          else (Throw P2025, db)
      end
  | user_update i d =>
      if wellTyped d then
        if int4 i then
          match head (filter (λ u, hasId i u) (users db)) with
          | Some u =>
              (Ok (updated d u),
               if nothingToSet d then db
               else withUsers db (filter (λ u, negb (hasId i u)) (users db)
                                  ++ [updated d u]))
          | None => (Throw P2025, db)
          end
        else (Throw P2020, db)
      else (Throw ValidationError, db)
  | user_delete i =>
      if int4 i then
        match head (filter (λ u, hasId i u) (users db)) with
        | Some u =>
            (Ok u, withUsers db (filter (λ u, negb (hasId i u)) (users db)))
        | None => (Throw P2025, db)
        end
      else (Throw P2020, db)
  | user_deleteMany w =>
      (Ok (Z.of_nat (length (filter (λ u, owned w u) (users db)))),
       withUsers db (filter (λ u, negb (owned w u)) (users db)))
  | authUser_findUnique e =>
      match asString e with
      | Some e => (Ok (head (filter (λ a, byEmail e a) (authUsers db))), db)
      | None => (Throw ValidationError, db)
      end
  | authUser_create e h =>
      match asString e with
      | Some e =>
          if bool_decide (e ∈ AuthUser.email <$> authUsers db)
          then (Throw P2002, skipAuthUserId db)
          else if text e then
            let row := {| AuthUser.id := authUserSeq db;
                          AuthUser.email := e;
                          AuthUser.passwordHash := h |} in
            (Ok row,
             {| users := users db; authUsers := authUsers db ++ [row];
                userSeq := userSeq db;
                authUserSeq := authUserSeq db + 1 |})
          else (Throw ValidationError, db)
      | None => (Throw ValidationError, db)
      end
  end.

End Prisma.
Export Prisma.

(* ===================================================================== *)
(** ** Handlers as trees of awaited store calls *)
(* ===================================================================== *)

Module Async.

(** An [async] route handler: it either has sent its response, or it
    awaits one store call and goes on with what the call resolved to or
    threw (the [catch] of the handler is a case of the continuation). *)
Inductive Handler : Type :=
| Done (r : Response)
| Await {X : Type} (c : Call X) (k : Result X → Handler).

(** A request handled with no other request in between. *)
Fixpoint run (h : Handler) (db : Db) : Response * Db :=
  match h with
  | Done r => (r, db)
  | Await c k => run (k (exec c db).1) (exec c db).2
  end.

(** The store calls a handler issues on the way, in order. *)
Fixpoint calls (h : Handler) (db : Db) : list string :=
  match h with
  | Done _ => []
  | Await c k => callName c :: calls (k (exec c db).1) (exec c db).2
  end.

(** How many of them write. *)
Fixpoint writes (h : Handler) (db : Db) : nat :=
  match h with
  | Done _ => 0%nat
  | Await c k =>
      ((if isWrite c then 1 else 0) + writes (k (exec c db).1) (exec c db).2)%nat
  end.

(** A request handled while other requests commit to the store: the
    n-th element of [others] is what they do to the store right after
    the n-th call of this handler has returned. *)
Fixpoint runBetween (others : list (Db → Db)) (h : Handler) (db : Db)
  : Response * Db :=
  match h with
  | Done r => (r, db)
  | Await c k =>
      match others with
      | [] => run (k (exec c db).1) (exec c db).2
      | f :: others => runBetween others (k (exec c db).1) (f (exec c db).2)
      end
  end.

End Async.
Export Async.

(* ===================================================================== *)
(** ** The owner-scoped route module *)
(* ===================================================================== *)

Inductive Route : Type :=
| Hello          (* GET /hello *)
| GetUsers       (* GET /users *)
| GetUser        (* GET /users/:id *)
| PostUsers      (* POST /users *)
| PutUser        (* PUT /users/:id *)
| DeleteUser     (* DELETE /users/:id *)
| DeleteUsers    (* DELETE /users *)
| Register       (* POST /register *)
| Login.         (* POST /login *)

(** Helper: Adult check *)
Definition isAdult (age : JsNumber) : bool := Js.ge age 18.

(** [const token = authHeader && authHeader.split(" ")[1]]; [None] is
    [undefined]. *)
Definition tokenOf (authHeader : option string) : option string :=
  match authHeader with
  | None => None
  | Some h => if bool_decide (h = "") then Some "" else split " " h !! 1%nat
  end.

(** An error thrown by a library call that is not Prisma's: it has no
    [code]. *)
Definition plainError : Error := {| code := None |}.

Module Scoped.
Section Routes.
Context `{Collaborators}.

(** Centralized Prisma error handler *)
Definition handlePrismaError (err : Error) (action : string) : Response :=
  if bool_decide (code err = Some "P2025")
  then json 404 (message (action +:+ " failed: record not found"))
  else
    let status := if truthy (VStr <$> code err) then 500 else 400 in
    json status (message (action +:+ " failed")).

Definition noToken : Response :=
  json 401 (JObj [("errors",
                   JObj [("message", JStr "No token provided");
                         ("code", JStr "NO_TOKEN")])]).

Definition invalidToken : Response :=
  json 403 (JObj [("errors",
                   JObj [("message",
                          JStr "Invalid or expired token - log out and log in again");
                         ("code", JStr "INVALID_TOKEN")])]).

(** JWT authentication middleware; [next] is the rest of the route,
    run with [req.user]. *)
Definition authenticateToken (req : Request.t)
    (next : Identity.t → Handler) : Handler :=
  let token := tokenOf (Request.authorization req) in
  if negb (truthy (VStr <$> token)) then Done noToken
  else
    match jwt_verify (default "" token) with
    | None => Done invalidToken
    | Some user => next user
    end.

Definition hello (req : Request.t) : Handler :=
  Done (json 200 (message "Hello, API Testing!")).

Definition get_users (req : Request.t) : Handler :=
  authenticateToken req (λ user,
    Await (user_findMany (Some (Identity.id user))) (λ r,
      match r with
      | Ok users => Done (json 200 (JArr (User.toJson <$> users)))
      | Throw err => Done (handlePrismaError err "Fetch users")
      end)).

Definition get_user (req : Request.t) : Handler :=
  authenticateToken req (λ user,
    match parseInt (Request.id req) with
    | None => Done (json 400 (message "Invalid ID"))
    | Some id =>
        Await (user_findFirst id (Identity.id user)) (λ r,
          match r with
          | Ok None => Done (json 404 (message "User not found"))
          | Ok (Some u) => Done (json 200 (User.toJson u))
          | Throw err => Done (handlePrismaError err "Fetch user")
          end)
    end).

Definition post_chains : list Validator.Chain :=
  Validator.chains Validator.Mandatory Validator.Mandatory
    Validator.Mandatory Validator.Mandatory.

Definition newUser (user : Identity.t) (b : Body) : UserCreateInput.t :=
  let age := parseInt (ToString (b !! "age")) in
  {| UserCreateInput.name := b !! "name";
     UserCreateInput.email := b !! "email";
     UserCreateInput.age := age;
     UserCreateInput.role := b !! "role";
     UserCreateInput.adult := isAdult age;
     UserCreateInput.owner := Identity.id user |}.

Definition post_users (req : Request.t) : Handler :=
  authenticateToken req (λ user,
    match Validator.validationResult post_chains (Request.body req) with
    | (_ :: _) as errors => Done (json 400 (JObj [("errors", JArr errors)]))
    | [] =>
        Await (user_create (newUser user (Request.body req))) (λ r,
          match r with
          | Ok newUserFromDb => Done (json 201 (User.toJson newUserFromDb))
          | Throw err => Done (handlePrismaError err "Create user")
          end)
    end).

Definition put_chains : list Validator.Chain :=
  Validator.chains Validator.IfUndefined Validator.IfUndefined
    Validator.IfUndefined Validator.IfUndefined.

Definition updateData (b : Body) : UserUpdateInput.t :=
  let age := (λ v, parseInt (ToString (Some v))) <$> b !! "age" in
  {| UserUpdateInput.name := b !! "name";
     UserUpdateInput.email := b !! "email";
     UserUpdateInput.age := age;
     UserUpdateInput.role := b !! "role";
     UserUpdateInput.adult := isAdult <$> age |}.

Definition put_user (req : Request.t) : Handler :=
  authenticateToken req (λ user,
    match parseInt (Request.id req) with
    | None => Done (json 400 (message "Invalid ID"))
    | Some id =>
        match Validator.validationResult put_chains (Request.body req) with
        | (_ :: _) as errors =>
            Done (json 400 (JObj [("errors", JArr errors)]))
        | [] =>
            (* Ensure the record belongs to the logged-in user *)
            Await (user_findFirst id (Identity.id user)) (λ r,
              match r with
              | Ok None => Done (json 404 (message "User not found"))
              | Ok (Some _) =>
                  Await (user_update id (updateData (Request.body req)))
                    (λ r,
                      match r with
                      | Ok updatedUser =>
                          Done (json 200 (User.toJson updatedUser))
                      | Throw err =>
                          Done (handlePrismaError err "Update user")
                      end)
              | Throw err => Done (handlePrismaError err "Update user")
              end)
        end
    end).

Definition delete_user (req : Request.t) : Handler :=
  authenticateToken req (λ user,
    match parseInt (Request.id req) with
    | None => Done (json 400 (message "Invalid ID"))
    | Some id =>
        (* Ensure ownership *)
        Await (user_findFirst id (Identity.id user)) (λ r,
          match r with
          | Ok None => Done (json 404 (message "User not found"))
          | Ok (Some _) =>
              Await (user_delete id) (λ r,
                match r with
                | Ok _ => Done (send 204)
                | Throw err => Done (handlePrismaError err "Delete user")
                end)
          | Throw err => Done (handlePrismaError err "Delete user")
          end)
    end).

Definition delete_users (req : Request.t) : Handler :=
  authenticateToken req (λ user,
    Await (user_deleteMany (Some (Identity.id user))) (λ r,
      match r with
      | Ok count => Done (json 200 (JObj [("deleted", JNum count)]))
      | Throw err => Done (handlePrismaError err "Delete all users")
      end)).

Definition register (req : Request.t) : Handler :=
  let email := Request.body req !! "email" in
  let password := Request.body req !! "password" in
  if negb (truthy email) || negb (truthy password)
  then Done (json 400 (message "Email and password are required"))
  else
    Await (authUser_findUnique email) (λ r,
      match r with
      | Ok (Some _) => Done (json 400 (message "Email already exists"))
      | Ok None =>
          match asString password with
          | None => Done (handlePrismaError plainError "Registration")
          | Some p =>
              Await (authUser_create email (bcrypt_hash p)) (λ r,
                match r with
                | Ok _ =>
                    Done (json 201
                            (JObj [("message", JStr "User registered");
                                   ("email", from_option ofValue JNull email)]))
                | Throw err =>
                    Done (handlePrismaError err "Registration")
                end)
          end
      | Throw err => Done (handlePrismaError err "Registration")
      end).

Definition login (req : Request.t) : Handler :=
  let email := Request.body req !! "email" in
  let password := Request.body req !! "password" in
  if negb (truthy email) || negb (truthy password)
  then Done (json 400 (message "Email and password are required"))
  else
    Await (authUser_findUnique email) (λ r,
      match r with
      | Ok None => Done (json 401 (message "Invalid email or password"))
      | Ok (Some user) =>
          match asString password with
          | None => Done (handlePrismaError plainError "Login")
          | Some p =>
              if bcrypt_compare p (AuthUser.passwordHash user)
              then
                let token :=
                  jwt_sign {| Identity.id := AuthUser.id user;
                              Identity.email := AuthUser.email user |}
                           "300000" in
                Done (json 200 (JObj [("token", JStr token)]))
              else Done (json 401 (message "Invalid email or password"))
          end
      | Throw err => Done (handlePrismaError err "Login")
      end).

Definition route (r : Route) : Request.t → Handler :=
  match r with
  | Hello => hello
  | GetUsers => get_users
  | GetUser => get_user
  | PostUsers => post_users
  | PutUser => put_user
  | DeleteUser => delete_user
  | DeleteUsers => delete_users
  | Register => register
  | Login => login
  end.

End Routes.
End Scoped.

(* ===================================================================== *)
(** ** The route module without owner scoping (src/api/index.js) *)
(* ===================================================================== *)

(** POST /users of this module is left out: it creates a row with no owner,
    which table "User" of the migrations under src/prisma (ownerId NOT
    NULL) does not hold. *)
Module Unscoped.
Section Routes.
Context `{Collaborators}.

(** authentication middleware *)
Definition authenticateToken (req : Request.t)
    (next : Identity.t → Handler) : Handler :=
  let token := tokenOf (Request.authorization req) in
  if negb (truthy (VStr <$> token))
  then Done (json 401 (message "No token provided"))
  else
    match jwt_verify (default "" token) with
    | None =>
        Done (json 403 (JObj [("errors", message "Invalid token")]))
    | Some user => next user
    end.

Definition hello (req : Request.t) : Handler :=
  Done (json 200 (message "Hello, API Testing!")).

Definition get_users (req : Request.t) : Handler :=
  Await (user_findMany None) (λ r,
    match r with
    | Ok users => Done (json 200 (JArr (User.toJson <$> users)))
    | Throw err => Done (json 500 (message "Failed to fetch users"))
    end).

Definition get_user (req : Request.t) : Handler :=
  match parseInt (Request.id req) with
  | None => Done (json 400 (message "Invalid ID"))
  | Some id =>
      Await (user_findUnique id) (λ r,
        match r with
        | Ok None => Done (json 404 (message "User not found"))
        | Ok (Some u) => Done (json 200 (User.toJson u))
        | Throw err => Done (json 500 (message "Failed to fetch user"))
        end)
  end.

Definition put_chains : list Validator.Chain :=
  Validator.chains Validator.IfFalsy Validator.IfFalsy
    Validator.IfNullable Validator.IfFalsy.

Definition updateData (b : Body) : UserUpdateInput.t :=
  let age := (λ v, parseInt (ToString (Some v))) <$> b !! "age" in
  {| UserUpdateInput.name := b !! "name";
     UserUpdateInput.email := b !! "email";
     UserUpdateInput.age := age;
     UserUpdateInput.role := b !! "role";
     UserUpdateInput.adult := isAdult <$> age |}.

Definition put_user (req : Request.t) : Handler :=
  authenticateToken req (λ user,
    match parseInt (Request.id req) with
    | None => Done (json 400 (message "Invalid ID"))
    | Some id =>
        match Validator.validationResult put_chains (Request.body req) with
        | (_ :: _) as errors =>
            Done (json 400 (JObj [("errors", JArr errors)]))
        | [] =>
            Await (user_update id (updateData (Request.body req))) (λ r,
              match r with
              | Ok updatedUser => Done (json 200 (User.toJson updatedUser))
              | Throw err =>
                  if bool_decide (code err = Some "P2025")
                  then Done (json 404 (message "User not found"))
                  else Done (json 500 (message "Failed to update user"))
              end)
        end
    end).

Definition delete_user (req : Request.t) : Handler :=
  authenticateToken req (λ user,
    match parseInt (Request.id req) with
    | None => Done (json 400 (message "Invalid ID"))
    | Some id =>
        Await (user_delete id) (λ r,
          match r with
          | Ok _ => Done (send 204)
          | Throw err =>
              if bool_decide (code err = Some "P2025")
              then Done (json 404 (message "User not found"))
              else Done (json 500 (message "Failed to delete user"))
          end)
    end).

Definition delete_users (req : Request.t) : Handler :=
  authenticateToken req (λ user,
    Await (user_deleteMany None) (λ r,
      match r with
      | Ok _ => Done (send 204)
      | Throw err => Done (json 500 (message "Failed to delete all users"))
      end)).

Definition register (req : Request.t) : Handler :=
  let email := Request.body req !! "email" in
  let password := Request.body req !! "password" in
  if negb (truthy email) || negb (truthy password)
  then Done (json 400 (message "Email and password are required"))
  else
    Await (authUser_findUnique email) (λ r,
      match r with
      | Ok (Some _) => Done (json 400 (message "Email already exists"))
      | Ok None =>
          match asString password with
          | None => Done (json 500 (message "Registration failed"))
          | Some p =>
              Await (authUser_create email (bcrypt_hash p)) (λ r,
                match r with
                | Ok _ =>
                    Done (json 201
                            (JObj [("message", JStr "User registered");
                                   ("email", from_option ofValue JNull email)]))
                | Throw err => Done (json 500 (message "Registration failed"))
                end)
          end
      | Throw err => Done (json 500 (message "Registration failed"))
      end).

Definition login (req : Request.t) : Handler :=
  let email := Request.body req !! "email" in
  let password := Request.body req !! "password" in
  if negb (truthy email) || negb (truthy password)
  then Done (json 400 (message "Email and password are required"))
  else
    Await (authUser_findUnique email) (λ r,
      match r with
      | Ok None => Done (json 401 (message "Invalid email or password"))
      | Ok (Some user) =>
          match asString password with
          | None => Done (json 500 (message "Login failed"))
          | Some p =>
              if bcrypt_compare p (AuthUser.passwordHash user)
              then
                let token :=
                  jwt_sign {| Identity.id := AuthUser.id user;
                              Identity.email := AuthUser.email user |}
                           "1h" in
                Done (json 200 (JObj [("token", JStr token)]))
              else Done (json 401 (message "Invalid email or password"))
          end
      | Throw err => Done (json 500 (message "Login failed"))
      end).

End Routes.
End Unscoped.

(* ===================================================================== *)
(** ** Vocabulary of the properties *)
(* ===================================================================== *)

(** The routes mounted behind [authenticateToken] in the scoped module. *)
Definition protected (r : Route) : bool :=
  match r with
  | GetUsers | GetUser | PostUsers | PutUser | DeleteUser | DeleteUsers => true
  | Hello | Register | Login => false
  end.

(** The routes with an [:id] path parameter. *)
Definition withId (r : Route) : bool :=
  match r with
  | GetUser | PutUser | DeleteUser => true
  | _ => false
  end.

(** The request carries the credentials [e] and [p], two non-empty
    strings, in the fields "email" and "password" of its body. *)
Definition credentials (req : Request.t) (e p : string) : Prop :=
  Request.body req !! "email" = Some (VStr e)
  ∧ Request.body req !! "password" = Some (VStr p)
  ∧ e ≠ "" ∧ p ≠ "".

(** The emails that have an account. *)
Definition emails (db : Db) : list string := AuthUser.email <$> authUsers db.

(** The 401 of POST /login. *)
Definition invalidCredentials : Response :=
  json 401 (message "Invalid email or password").

(** The 404 of GET, PUT and DELETE /users/:id. *)
Definition notFound : Response := json 404 (message "User not found").

(** No row with this id belongs to this owner: the id is absent, or its
    row is someone else's. *)
Definition notOwned (db : Db) (id owner : Z) : Prop :=
  ∀ u, u ∈ users db → User.id u = id → User.ownerId u ≠ owner.

(** What PUT /users/:id answers when the record is not the caller's: it
    validates the body before it looks the record up. *)
Definition putNotMine `{Collaborators} (req : Request.t) : Response :=
  match Validator.validationResult Scoped.put_chains (Request.body req) with
  | [] => notFound
  | errors => json 400 (JObj [("errors", JArr errors)])
  end.

(** The guard lets the request through as [user]: the header has a
    non-empty second component that verifies to [user]. *)
Definition authenticated `{Collaborators} (req : Request.t) (user : Identity.t)
    : Prop :=
  ∃ token, tokenOf (Request.authorization req) = Some token
           ∧ token ≠ "" ∧ jwt_verify token = Some user.

(** A header of the form "Bearer <token>" with a non-empty token free of
    spaces, in the words of the specification. *)
Definition bearerForm (authHeader : option string) : Prop :=
  ∃ token, authHeader = Some ("Bearer " +:+ token)
           ∧ token ≠ "" ∧ split " " token = [token].

(** A path parameter that is an integer: an optional sign and digits, and
    nothing else. *)
Definition integerLiteral (s : string) : Prop :=
  is_Some (Validator.numeral s).

(** The derived flag agrees with the age on every resource record. *)
Definition adultInvariant (db : Db) : Prop :=
  ∀ u, u ∈ users db → User.adult u = (18 <=? User.age u).

(** A store call that writes [adult] only as derived from the age it
    writes along with it. *)
Definition derived {X} (c : Call X) : Prop :=
  match c with
  | user_create d => UserCreateInput.adult d = isAdult (UserCreateInput.age d)
  | user_update _ d => UserUpdateInput.adult d = isAdult <$> UserUpdateInput.age d
  | _ => True
  end.

(** A handler all of whose store calls are such, whatever the store
    answers. *)
Fixpoint derivesAdult (h : Handler) : Prop :=
  match h with
  | Done _ => True
  | Await c k => derived c ∧ ∀ x, derivesAdult (k x)
  end.

(** Two bodies with the same name, email, age and role. *)
Definition sameFields (b1 b2 : Body) : Prop :=
  b1 !! "name" = b2 !! "name" ∧ b1 !! "email" = b2 !! "email"
  ∧ b1 !! "age" = b2 !! "age" ∧ b1 !! "role" = b2 !! "role".

(** Every resource record belongs to this owner, so that filtering by
    the owner filters nothing out. *)
Definition allOwnedBy (db : Db) (owner : Z) : Prop :=
  ∀ u, u ∈ users db → User.ownerId u = owner.

(** A path parameter whose number, when [parseInt] reads one, is a key
    of the id column. *)
Definition keyInRange (s : string) : Prop :=
  ∀ i, parseInt s = Some i → int4 i = true.

(** A field that is absent or a non-empty string that a TEXT column
    holds. *)
Definition textOrAbsent (v : option JsValue) : Prop :=
  v = None ∨ ∃ s, v = Some (VStr s) ∧ s ≠ "" ∧ text s = true.

(** A body on which the [.optional(..)] variants of the two PUT routes
    skip the same fields, and whose strings are strings the store
    takes. *)
Definition plainUpdate (b : Body) : Prop :=
  textOrAbsent (b !! "name") ∧ textOrAbsent (b !! "email")
  ∧ textOrAbsent (b !! "role") ∧ b !! "age" ≠ Some VNull.

(** The states the owner-scoped module can bring an empty store to, one
    whole request after the other. *)
Inductive reachable `{Collaborators} : Db → Prop :=
| reachable_empty : reachable Prisma.empty
| reachable_step db r req :
    reachable db → reachable (run (Scoped.route r req) db).2.

(** A small instance of the collaborators to evaluate the handlers with:
    tokens "tokA" and "tokB" verify to the accounts 1 and 2, an email is
    a string with an at sign, and a hash is the password with a prefix. *)
Module Demo.
Fixpoint hasAt (s : string) : bool :=
  match s with
  | String.String c r => bool_decide (c = "@"%char) || hasAt r
  | EmptyString => false
  end.

Definition alice : Identity.t :=
  {| Identity.id := 1; Identity.email := "a@x.com" |}.
Definition bob : Identity.t :=
  {| Identity.id := 2; Identity.email := "b@x.com" |}.

#[export] Instance collaborators : Collaborators :=
  {| isEmail := hasAt;
     bcrypt_hash := λ p, "$2b$10$" +:+ p;
     bcrypt_compare := λ p h, bool_decide (h = "$2b$10$" +:+ p);
     jwt_sign := λ user expiresIn,
       "jwt." +:+ pretty (Identity.id user) +:+ "." +:+ expiresIn;
     jwt_verify := λ t,
       if bool_decide (t = "tokA") then Some alice
       else if bool_decide (t = "tokB") then Some bob
       else None |}.

Definition accounts : list AuthUser.t :=
  [ {| AuthUser.id := 1; AuthUser.email := "a@x.com";
       AuthUser.passwordHash := "$2b$10$pw123" |};
    {| AuthUser.id := 2; AuthUser.email := "b@x.com";
       AuthUser.passwordHash := "$2b$10$hunter2" |} ].

(** Record 12, owned by account 2. *)
Definition carol : User.t :=
  {| User.id := 12; User.name := "Carol"; User.email := "c@x.com";
     User.age := 30; User.role := "user"; User.adult := true;
     User.ownerId := 2; User.id_int4 := I |}.

(** Record 13, owned by account 1. *)
Definition dave : User.t :=
  {| User.id := 13; User.name := "Dave"; User.email := "d@x.com";
     User.age := 17; User.role := "user"; User.adult := false;
     User.ownerId := 1; User.id_int4 := I |}.

Definition db : Db :=
  {| users := [carol; dave]; authUsers := accounts;
     userSeq := 14; authUserSeq := 3 |}.

Definition request (auth : option string) (id : string)
    (fields : list (string * JsValue)) : Request.t :=
  {| Request.authorization := auth; Request.id := id;
     Request.body := list_to_map fields |}.

(** U+00A0 and U+FEFF, as their bytes. *)
Definition nbsp : string :=
  String.String (Ascii.ascii_of_N 194) (String.String (Ascii.ascii_of_N 160) "").
Definition bom : string :=
  String.String (Ascii.ascii_of_N 239)
    (String.String (Ascii.ascii_of_N 187)
       (String.String (Ascii.ascii_of_N 191) "")).
End Demo.

(* ===================================================================== *)
(** ** Vocabulary of the further properties *)
(* ===================================================================== *)

(** A handler all of whose store calls satisfy [P], whatever the store
    answers. *)
Fixpoint allCalls (P : ∀ X, Call X → Prop) (h : Handler) : Prop :=
  match h with
  | Done _ => True
  | Await c k => P _ c ∧ ∀ x, allCalls P (k x)
  end.

(** A body that the chains of POST /users let through: a non-empty string
    as name, a non-empty email that [isEmail] accepts, an age that reads
    as a whole number from 0 to 125, and one of the two roles. *)
Definition acceptable `{Collaborators} (b : Body) : Prop :=
  (∃ n, b !! "name" = Some (VStr n) ∧ n ≠ "")
  ∧ Validator.toString (b !! "email") ≠ ""
  ∧ isEmail (Validator.toString (b !! "email")) = true
  ∧ (∃ a, Validator.numeral (Validator.toString (b !! "age")) = Some a
          ∧ 0 ≤ a ≤ 125)
  ∧ Validator.toString (b !! "role") ∈ ["admin"; "user"].

(** A resource record as the validation chains let it in. *)
Definition validRecord `{Collaborators} (u : User.t) : Prop :=
  User.name u ≠ "" ∧ isEmail (User.email u) = true
  ∧ 0 ≤ User.age u ≤ 125 ∧ User.role u ∈ ["admin"; "user"].

(** A store call that writes resource records only as validation lets
    them in: the row it creates is valid, and the rows it patches stay
    valid. *)
Definition validated `{Collaborators} {X} (c : Call X) : Prop :=
  match c with
  | user_create d => ∀ i row, newRow i d = Some row → validRecord row
  | user_update _ d =>
      ∀ u u', validRecord u → patch d u = Some u' → validRecord u'
  | _ => True
  end.

(** What a request on behalf of account [A] may do to table User: the
    rows of the other accounts are the same before and after, and every
    row that is new or changed is a row of [A]. *)
Definition keepsOthers (A : Z) (before after : Db) : Prop :=
  filter (λ u, User.ownerId u ≠ A) (users after)
  = filter (λ u, User.ownerId u ≠ A) (users before)
  ∧ ∀ u, u ∈ users after → u ∈ users before ∨ User.ownerId u = A.

(** The keys of the two tables as the migrations declare them: ids drawn
    from the sequences and unique, one account per email, and the owner of
    every resource record an account. *)
Definition keysInvariant (db : Db) : Prop :=
  NoDup (User.id <$> users db)
  ∧ (∀ u, u ∈ users db → User.id u < userSeq db)
  ∧ NoDup (AuthUser.id <$> authUsers db)
  ∧ (∀ a, a ∈ authUsers db → AuthUser.id a < authUserSeq db)
  ∧ NoDup (emails db)
  ∧ (∀ u, u ∈ users db → User.ownerId u ∈ AuthUser.id <$> authUsers db).

(** Collaborators whose [jwt_verify] accepts what their [jwt_sign] issues
    for the first two accounts, to follow a token from login to the
    guard. *)
Module Session.
Definition collaborators : Collaborators :=
  {| isEmail := Demo.hasAt;
     bcrypt_hash := λ p, "$2b$10$" +:+ p;
     bcrypt_compare := λ p h, bool_decide (h = "$2b$10$" +:+ p);
     jwt_sign := λ user expiresIn,
       if bool_decide (Identity.id user = 1) then "tokA"
       else if bool_decide (Identity.id user = 2) then "tokB"
       else "";
     jwt_verify := λ t,
       if bool_decide (t = "tokA") then Some Demo.alice
       else if bool_decide (t = "tokB") then Some Demo.bob
       else None |}.
End Session.

(* ===================================================================== *)
(** ** Properties *)
(* ===================================================================== *)

(** Closed examples are evaluated with the collaborators of [Demo]. *)
Import (hints) Demo.

(** Runs a handler up to the store call it awaits next, leaving the
    query of the call as it is written. *)
Ltac step := cbn [run calls writes exec fst snd callName isWrite Nat.add].

(** *** The primitives on concrete inputs *)

Example parseInt_42 : parseInt "42" = Some 42.
Proof. reflexivity. Qed.

Example parseInt_prefix : parseInt "12abc" = Some 12.
Proof. reflexivity. Qed.

Example parseInt_signed : parseInt "  -7" = Some (-7).
Proof. reflexivity. Qed.

Example parseInt_NaN : parseInt "abc" = None.
Proof. reflexivity. Qed.

Example parseInt_no_break_space : parseInt (Demo.nbsp +:+ "13") = Some 13.
Proof. reflexivity. Qed.

Example parseInt_mixed_space :
  parseInt (" " +:+ Demo.bom +:+ Demo.nbsp +:+ "-13px") = Some (-13).
Proof. reflexivity. Qed.

Example split_bearer : split " " "Bearer abc.def" = ["Bearer"; "abc.def"].
Proof. reflexivity. Qed.

Example split_two_spaces : split " " "Bearer  t" = ["Bearer"; ""; "t"].
Proof. reflexivity. Qed.

Example tokenOf_no_scheme_check : tokenOf (Some "Basic tokA") = Some "tokA".
Proof. reflexivity. Qed.

Example isInt_range :
  Validator.isInt 0 125 (Some (VStr "125")) = true
  ∧ Validator.isInt 0 125 (Some (VNum 126)) = false
  ∧ Validator.isInt 0 125 (Some (VStr "1.5")) = false
  ∧ Validator.isInt 0 125 (Some VNull) = false.
Proof. by vm_compute. Qed.

(** *** The guard *)

Section Guard.
Context `{Collaborators}.

Lemma truthy_string (t : string) :
  truthy (Some (VStr t)) = negb (bool_decide (t = "")).
Proof. reflexivity. Qed.

(** An authenticated request goes on to the route with its identity. *)
Lemma authenticateToken_next req user next :
  authenticated req user → Scoped.authenticateToken req next = next user.
Proof.
  intros (t & Ht & Hne & Hv). unfold Scoped.authenticateToken.
  rewrite Ht. cbn [fmap option_fmap option_map default].
  rewrite truthy_string, bool_decide_false by done. cbn. by rewrite Hv.
Qed.

Lemma authenticateToken_no_token req next :
  tokenOf (Request.authorization req) = None
  ∨ tokenOf (Request.authorization req) = Some "" →
  Scoped.authenticateToken req next = Done Scoped.noToken.
Proof.
  unfold Scoped.authenticateToken. by intros [-> | ->].
Qed.

Lemma authenticateToken_invalid req next t :
  tokenOf (Request.authorization req) = Some t → t ≠ "" →
  jwt_verify t = None →
  Scoped.authenticateToken req next = Done Scoped.invalidToken.
Proof.
  intros Ht Hne Hv. unfold Scoped.authenticateToken.
  rewrite Ht. cbn [fmap option_fmap option_map default].
  rewrite truthy_string, bool_decide_false by done. cbn. by rewrite Hv.
Qed.

(** The same three facts for the guard of the unscoped module. *)
Lemma unscoped_authenticateToken_next req user next :
  authenticated req user → Unscoped.authenticateToken req next = next user.
Proof.
  intros (t & Ht & Hne & Hv). unfold Unscoped.authenticateToken.
  rewrite Ht. cbn [fmap option_fmap option_map default].
  rewrite truthy_string, bool_decide_false by done. cbn. by rewrite Hv.
Qed.

End Guard.

Lemma protected_guarded `{Collaborators} r req :
  protected r = true →
  ∃ next, Scoped.route r req = Scoped.authenticateToken req next.
Proof. destruct r; intros ?; try done; eexists; reflexivity. Qed.

Lemma tokenOf_bearer (t : string) : tokenOf (Some ("Bearer " +:+ t)) = head (split " " t).
Proof.
  unfold tokenOf. rewrite bool_decide_false by done.
  cbv [String.append]. cbn. by destruct (split " " t).
Qed.

Lemma bearerForm_tokenOf authHeader :
  bearerForm authHeader → ∃ t, tokenOf authHeader = Some t ∧ t ≠ "".
Proof.
  intros (t & -> & Hne & Hsplit). exists t.
  by rewrite tokenOf_bearer, Hsplit.
Qed.

(** Any first word will do: the second component is what follows the
    first space. *)
Lemma split_first_word (w t : string) :
  split " " w = [w] →
  split " " (w +:+ " " +:+ t) = w :: split " " t.
Proof.
  induction w as [|c w IH]; [intros _; reflexivity|].
  change (String.String c w +:+ " " +:+ t)
    with (String.String c (w +:+ " " +:+ t)).
  cbn [split]. destruct (Ascii.eqb c " ") eqn:Hc;
    [intros Heq; discriminate Heq|].
  destruct (split " " w) as [|h l] eqn:Hw;
    [intros [= <-]; discriminate Hw|].
  intros [= -> ->]. by rewrite IH.
Qed.

Lemma any_scheme_authenticates `{Collaborators} (req : Request.t)
    (scheme token : string) (user : Identity.t) :
  scheme ≠ "" → split " " scheme = [scheme] → split " " token = [token] →
  token ≠ "" → jwt_verify token = Some user →
  Request.authorization req = Some (scheme +:+ " " +:+ token) →
  authenticated req user.
Proof.
  intros Hs Hword Htoken Hne Hv Hh. exists token. repeat split; [|done..].
  rewrite Hh. unfold tokenOf. rewrite bool_decide_false.
  - by rewrite split_first_word, Htoken.
  - by destruct scheme.
Qed.

(** C2, as the code has it.  On every route behind the guard: a header
    that is absent, empty, or without a non-empty second component after
    splitting on the space is answered 401 NO_TOKEN; a non-empty second
    component that fails verification is answered 403 INVALID_TOKEN,
    which covers every header "Bearer <token>" whose token does not
    verify.  In both cases the handler is finished before it awaits any
    store call.  The first word of the header is never inspected. *)
Theorem guard_rejects_before_store `{Collaborators} (r : Route) (req : Request.t) :
  protected r = true →
  (Request.authorization req = None → Scoped.route r req = Done Scoped.noToken)
  ∧ (tokenOf (Request.authorization req) = None
     ∨ tokenOf (Request.authorization req) = Some "" →
     Scoped.route r req = Done Scoped.noToken)
  ∧ (∀ t, tokenOf (Request.authorization req) = Some t → t ≠ "" →
          jwt_verify t = None →
          Scoped.route r req = Done Scoped.invalidToken)
  ∧ (∀ t, Request.authorization req = Some ("Bearer " +:+ t) → t ≠ "" →
          split " " t = [t] → jwt_verify t = None →
          Scoped.route r req = Done Scoped.invalidToken)
  ∧ status Scoped.noToken = 401 ∧ status Scoped.invalidToken = 403.
Proof.
  intros Hr. destruct (protected_guarded r req Hr) as [next ->].
  repeat split.
  - intros Hnone. apply authenticateToken_no_token. rewrite Hnone. by left.
  - apply authenticateToken_no_token.
  - intros t. apply authenticateToken_invalid.
  - intros t Hh Hne Hsplit Hv.
    apply (authenticateToken_invalid _ _ t); [|done..].
    by rewrite Hh, tokenOf_bearer, Hsplit.
Qed.

Lemma guard_rejects_before_store_witness :
  Scoped.route GetUsers (Demo.request (Some "Bearer") "" []) = Done Scoped.noToken
  ∧ Scoped.route GetUsers (Demo.request (Some "Bearer expired") "" [])
    = Done Scoped.invalidToken.
Proof.
  split.
  - apply (guard_rejects_before_store GetUsers
             (Demo.request (Some "Bearer") "" []) eq_refl).
    left. reflexivity.
  - apply (guard_rejects_before_store GetUsers
             (Demo.request (Some "Bearer expired") "" []) eq_refl
             : _ ∧ _ ∧ _ ∧ _) with (t := "expired"); reflexivity || done.
Defined.

(** C2 as it is worded fails: the header "Basic tokA" is not of the form
    "Bearer <token>", yet the guard takes its second word as the token,
    verifies it and lets GET /users through with 200. *)
Lemma malformed_header_not_always_401 :
  ¬ (∀ (C : Collaborators) (r : Route) (req : Request.t) (db : Db),
       protected r = true →
       ¬ bearerForm (Request.authorization req) →
       status (run (Scoped.route r req) db).1 = 401).
Proof.
  intros claim.
  specialize (claim Demo.collaborators GetUsers
                (Demo.request (Some "Basic tokA") "" []) Demo.db eq_refl).
  assert (Hnot : ¬ bearerForm (Some "Basic tokA")).
  { intros (t & Heq & _). cbn in Heq. discriminate Heq. }
  specialize (claim Hnot). vm_compute in claim. discriminate claim.
Qed.

(** *** Path parameters *)

Lemma digit_not_space_or_sign c d :
  digit c = Some d →
  isWhiteSpace c = false ∧ c ≠ "-"%char ∧ c ≠ "+"%char.
Proof.
  destruct c as [[] [] [] [] [] [] [] []]; vm_compute; intros ?;
    by repeat split.
Qed.

(** A character of one byte that is no white space ends the white space
    [parseInt] skips. *)
Lemma trimStart_ascii a r :
  isWhiteSpace a = false → (Ascii.N_of_ascii a <? 128)%N = true →
  trimStart (String.String a r) = String.String a r.
Proof.
  intros Hw Ha.
  destruct a as [[] [] [] [] [] [] [] []];
    try discriminate Hw; try discriminate Ha;
    destruct r as [|b [|c r]]; reflexivity.
Qed.

Lemma trimStart_digit c d r :
  digit c = Some d → trimStart (String.String c r) = String.String c r.
Proof.
  intros Hc. apply trimStart_ascii.
  - by destruct (digit_not_space_or_sign _ _ Hc).
  - by destruct c as [[] [] [] [] [] [] [] []].
Qed.

Lemma parseInt_minus r : parseInt (String.String "-" r) = Z.opp <$> digits None r.
Proof. unfold parseInt. by rewrite trimStart_ascii. Qed.

Lemma parseInt_plus r : parseInt (String.String "+" r) = digits None r.
Proof. unfold parseInt. by rewrite trimStart_ascii. Qed.

Lemma allDigits_digits r acc : Validator.allDigits r = true → is_Some (digits acc r).
Proof.
  revert acc. induction r as [|c r IH]; intros acc; cbn; [done|].
  destruct (digit c) as [d|]; [|done].
  destruct r as [|c' r]; [by eexists|]. intros Hr. by apply IH.
Qed.

Lemma parseInt_unsigned s :
  Validator.allDigits s = true → parseInt s = digits None s.
Proof.
  destruct s as [|c r]; [done|]. cbn [Validator.allDigits].
  destruct (digit c) as [d|] eqn:Hc; [|done]. intros _.
  destruct (digit_not_space_or_sign _ _ Hc) as (Hw & Hm & Hp).
  unfold parseInt. rewrite (trimStart_digit _ _ _ Hc).
  destruct c as [[] [] [] [] [] [] [] []]; try reflexivity; congruence.
Qed.

(** A path parameter that is an integer never parses to [NaN]. *)
Lemma integerLiteral_parseInt s : integerLiteral s → is_Some (parseInt s).
Proof.
  unfold integerLiteral, Validator.numeral.
  assert (Hu : ∀ r, is_Some (if Validator.allDigits r then digits None r else None)
                    → Validator.allDigits r = true).
  { intros r. destruct (Validator.allDigits r); [done|]. by intros [? ?]. }
  destruct s as [|c r].
  { cbn. by intros [? ?]. }
  destruct (decide (c = "-"%char)) as [->|Hm].
  { intros Hs. apply fmap_is_Some in Hs. apply Hu in Hs.
    rewrite parseInt_minus. apply fmap_is_Some. by apply allDigits_digits. }
  destruct (decide (c = "+"%char)) as [->|Hp].
  { intros Hs. apply Hu in Hs.
    rewrite parseInt_plus. by apply allDigits_digits. }
  intros Hs.
  assert (Hs' : Validator.allDigits (String.String c r) = true).
  { apply Hu. destruct c as [[] [] [] [] [] [] [] []]; try exact Hs; congruence. }
  rewrite parseInt_unsigned by done. by apply allDigits_digits.
Qed.

(** C9, as the code has it.  Behind the guard, GET, PUT and DELETE
    /users/:id answer 400 "Invalid ID" and are finished before any store
    call whenever [parseInt] of the path parameter is [NaN], that is when
    the parameter does not start (after white space and a sign) with a
    digit; such a parameter is never an integer. *)
Theorem invalid_id_rejected `{Collaborators} (r : Route) (req : Request.t)
    (user : Identity.t) :
  authenticated req user →
  withId r = true →
  parseInt (Request.id req) = None →
  Scoped.route r req = Done (json 400 (message "Invalid ID"))
  ∧ ¬ integerLiteral (Request.id req).
Proof.
  intros Hauth Hr Hnan. split.
  - destruct r; try discriminate Hr; cbn [Scoped.route];
      unfold Scoped.get_user, Scoped.put_user, Scoped.delete_user;
      rewrite (authenticateToken_next _ user) by done; by rewrite Hnan.
  - intros Hint. apply integerLiteral_parseInt in Hint.
    rewrite Hnan in Hint. by destruct Hint.
Qed.

Lemma invalid_id_rejected_witness :
  Scoped.route DeleteUser (Demo.request (Some "Bearer tokA") "abc" [])
  = Done (json 400 (message "Invalid ID"))
  ∧ ¬ integerLiteral "abc".
Proof.
  apply (invalid_id_rejected DeleteUser
           (Demo.request (Some "Bearer tokA") "abc" []) Demo.alice).
  - exists "tokA". by vm_compute.
  - reflexivity.
  - reflexivity.
Defined.

(** White space before the number is skipped, the no-break space
    included. *)
Example get_user_no_break_space :
  run (Scoped.get_user (Demo.request (Some "Bearer tokA") (Demo.nbsp +:+ "13") []))
      Demo.db
  = (json 200 (User.toJson Demo.dave), Demo.db).
Proof. reflexivity. Qed.

(** C9 as it is worded fails: "13abc" is not an integer, but [parseInt]
    reads 13 from it, and GET /users/13abc looks record 13 up in the store
    and answers 200. *)
Lemma non_integer_id_reaches_store :
  ¬ (∀ (C : Collaborators) (r : Route) (req : Request.t) (user : Identity.t)
       (db : Db),
       authenticated req user →
       withId r = true →
       ¬ integerLiteral (Request.id req) →
       status (run (Scoped.route r req) db).1 = 400
       ∧ calls (Scoped.route r req) db = []).
Proof.
  intros claim.
  destruct (claim Demo.collaborators GetUser
              (Demo.request (Some "Bearer tokA") "13abc" []) Demo.alice Demo.db)
    as [Hstatus _].
  - exists "tokA". by vm_compute.
  - reflexivity.
  - intros [z Hz]. vm_compute in Hz. discriminate Hz.
  - vm_compute in Hstatus. discriminate Hstatus.
Qed.

(** *** Owner-scoped reads and deletes *)


Lemma head_filter_elem {A} (P : A → Prop) `{∀ x, Decision (P x)} (l : list A) x :
  head (filter P l) = Some x → x ∈ l ∧ P x.
Proof.
  destruct (filter P l) as [|y k] eqn:Hf; [done|]. intros [= ->].
  assert (Hx : x ∈ x :: k) by apply list_elem_of_here.
  rewrite <- Hf in Hx. apply list_elem_of_filter in Hx. tauto.
Qed.

Lemma head_filter_none {A} (P : A → Prop) `{∀ x, Decision (P x)} (l : list A) :
  head (filter P l) = None → ∀ x, x ∈ l → ¬ P x.
Proof.
  intros Hh x Hx HP. apply head_None in Hh.
  by apply (filter_nil_not_elem_of P l x).
Qed.

Lemma owned_spec o u : owned (Some o) u ↔ User.ownerId u = o.
Proof. unfold owned. apply bool_decide_spec. Qed.

Lemma hasId_spec i u : hasId i u ↔ User.id u = i.
Proof. unfold hasId. apply bool_decide_spec. Qed.

(** The id of a row is a value of its column. *)
Lemma id_in_range (u : User.t) : int4 (User.id u) = true.
Proof. apply Is_true_true_1, User.id_int4. Qed.

(** The calls by id, for a key of the column. *)
Lemma exec_findFirst (db : Db) i o :
  int4 i = true →
  exec (user_findFirst i o) db
  = (Ok (head (filter (λ u, hasId i u && owned (Some o) u) (users db))), db).
Proof. intros Hi. cbn [exec]. by rewrite Hi. Qed.

Lemma exec_findUnique (db : Db) i :
  int4 i = true →
  exec (user_findUnique i) db
  = (Ok (head (filter (λ u, hasId i u) (users db))), db).
Proof. intros Hi. cbn [exec]. by rewrite Hi. Qed.

Lemma exec_update (db : Db) i d :
  wellTyped d = true → int4 i = true →
  exec (user_update i d) db
  = match head (filter (λ u, hasId i u) (users db)) with
    | Some u =>
        (Ok (updated d u),
         if nothingToSet d then db
         else withUsers db (filter (λ u, negb (hasId i u)) (users db)
                            ++ [updated d u]))
    | None => (Throw P2025, db)
    end.
Proof. intros Hd Hi. cbn [exec]. by rewrite Hd, Hi. Qed.

Lemma updated_nothing d u : nothingToSet d = true → updated d u = u.
Proof.
  destruct d as [[n|] [e|] [a|] [r|] [ad|]]; try discriminate. intros _.
  by destruct u.
Qed.

Lemma exec_delete (db : Db) i :
  int4 i = true →
  exec (user_delete i) db
  = match head (filter (λ u, hasId i u) (users db)) with
    | Some u =>
        (Ok u, withUsers db (filter (λ u, negb (hasId i u)) (users db)))
    | None => (Throw P2025, db)
    end.
Proof. intros Hi. cbn [exec]. by rewrite Hi. Qed.

Lemma filter_owned o (l : list User.t) :
  filter (λ u, owned (Some o) u) l = filter (λ u, User.ownerId u = o) l.
Proof. apply list_filter_iff. intros u. apply owned_spec. Qed.

Lemma filter_not_owned o (l : list User.t) :
  filter (λ u, negb (owned (Some o) u)) l = filter (λ u, User.ownerId u ≠ o) l.
Proof.
  apply list_filter_iff. intros u.
  rewrite <- owned_spec. destruct (owned (Some o) u); cbn; tauto.
Qed.

(** [findFirst({ where: { id, ownerId } })] finds nothing exactly when no
    row with that id belongs to that owner, be it that the id is absent
    or that its row belongs to someone else. *)
Lemma findFirst_none (db : Db) i o :
  int4 i = true →
  notOwned db i o →
  exec (user_findFirst i o) db = (Ok None, db).
Proof.
  intros Hi4 Hnot. rewrite exec_findFirst by done. do 2 f_equal.
  apply head_None.
  destruct (filter _ _) as [|u l] eqn:Hf; [done|].
  assert (Hu : u ∈ u :: l) by apply list_elem_of_here.
  rewrite <- Hf in Hu. apply list_elem_of_filter in Hu as [Hp Hin].
  apply andb_True in Hp as [Hi Ho].
  apply hasId_spec in Hi. apply owned_spec in Ho. by destruct (Hnot u).
Qed.

(** C3.  GET /users by a caller authenticated as account A answers 200
    with the rows of table User whose ownerId is A, all of them and no
    other, leaves the store as it was, and issues no writing call. *)
Theorem get_users_owner_filtered `{Collaborators} (req : Request.t)
    (user : Identity.t) (db : Db) :
  authenticated req user →
  let records := filter (λ u, User.ownerId u = Identity.id user) (users db) in
  run (Scoped.get_users req) db
  = (json 200 (JArr (User.toJson <$> records)), db)
  ∧ (∀ u, u ∈ records ↔ u ∈ users db ∧ User.ownerId u = Identity.id user)
  ∧ calls (Scoped.get_users req) db = ["user.findMany"]
  ∧ writes (Scoped.get_users req) db = 0%nat.
Proof.
  intros Hauth records. unfold Scoped.get_users.
  rewrite (authenticateToken_next _ user) by done.
  step. rewrite filter_owned.
  split; [reflexivity|]. split; [|split; reflexivity].
  intros u. subst records. rewrite list_elem_of_filter. tauto.
Qed.

Lemma get_users_owner_filtered_witness :
  run (Scoped.get_users (Demo.request (Some "Bearer tokA") "" [])) Demo.db
  = (json 200 (JArr [User.toJson Demo.dave]), Demo.db).
Proof.
  apply (get_users_owner_filtered
           (Demo.request (Some "Bearer tokA") "" []) Demo.alice Demo.db).
  exists "tokA". by vm_compute.
Defined.

(** C4.  DELETE /users by a caller authenticated as account A removes
    the rows owned by A and no other row, leaves every row of another
    owner and the accounts as they were, and answers 200 with
    [{ deleted: n }], n being the number of rows A owned before. *)
Theorem delete_users_frame `{Collaborators} (req : Request.t)
    (user : Identity.t) (db : Db) :
  authenticated req user →
  let A := Identity.id user in
  let after := (run (Scoped.delete_users req) db).2 in
  (run (Scoped.delete_users req) db).1
  = json 200 (JObj [("deleted",
                     JNum (Z.of_nat (length (filter (λ u, User.ownerId u = A)
                                                    (users db)))))])
  ∧ users after = filter (λ u, User.ownerId u ≠ A) (users db)
  ∧ (∀ u, u ∈ users after ↔ u ∈ users db ∧ User.ownerId u ≠ A)
  ∧ authUsers after = authUsers db.
Proof.
  intros Hauth A after. subst after. unfold Scoped.delete_users.
  rewrite (authenticateToken_next _ user) by done.
  step. rewrite filter_owned, filter_not_owned.
  split; [reflexivity|]. split; [reflexivity|]. split; [|reflexivity].
  intros u. cbn [users withUsers]. rewrite list_elem_of_filter. tauto.
Qed.

Lemma delete_users_frame_witness :
  (run (Scoped.delete_users (Demo.request (Some "Bearer tokA") "" [])) Demo.db).1
  = json 200 (JObj [("deleted", JNum 1)])
  ∧ users (run (Scoped.delete_users (Demo.request (Some "Bearer tokA") "" []))
               Demo.db).2 = [Demo.carol].
Proof.
  destruct (delete_users_frame
              (Demo.request (Some "Bearer tokA") "" []) Demo.alice Demo.db)
    as (Hresp & Husers & _).
  - exists "tokA". by vm_compute.
  - split; [exact Hresp | exact Husers].
Defined.

(** A caller with no rows gets [{ deleted: 0 }]. *)
Example delete_users_none :
  run (Scoped.delete_users (Demo.request (Some "Bearer tokA") "" []))
      (withUsers Demo.db [Demo.carol])
  = (json 200 (JObj [("deleted", JNum 0)]), withUsers Demo.db [Demo.carol]).
Proof. reflexivity. Qed.

(** *** Records of another owner *)

Section Foreign.
Context `{Collaborators}.
Variables (req : Request.t) (user : Identity.t) (id : Z).
Hypothesis Hauth : authenticated req user.
Hypothesis Hid : parseInt (Request.id req) = Some id.
Hypothesis Hrange : int4 id = true.

Lemma get_user_not_mine db :
  notOwned db id (Identity.id user) →
  run (Scoped.get_user req) db = (notFound, db)
  ∧ writes (Scoped.get_user req) db = 0%nat.
Proof.
  intros Hnot. unfold Scoped.get_user.
  rewrite (authenticateToken_next _ user), Hid by done.
  cbn [run writes isWrite]. by rewrite findFirst_none.
Qed.

Lemma delete_user_not_mine db :
  notOwned db id (Identity.id user) →
  run (Scoped.delete_user req) db = (notFound, db)
  ∧ writes (Scoped.delete_user req) db = 0%nat.
Proof.
  intros Hnot. unfold Scoped.delete_user.
  rewrite (authenticateToken_next _ user), Hid by done.
  cbn [run writes isWrite]. by rewrite findFirst_none.
Qed.

Lemma put_user_not_mine db :
  notOwned db id (Identity.id user) →
  run (Scoped.put_user req) db = (putNotMine req, db)
  ∧ writes (Scoped.put_user req) db = 0%nat.
Proof.
  intros Hnot. unfold Scoped.put_user, putNotMine.
  rewrite (authenticateToken_next _ user), Hid by done.
  destruct (Validator.validationResult _ _); [|done].
  cbn [run writes isWrite]. by rewrite findFirst_none.
Qed.

Lemma id_route_not_mine r db :
  withId r = true → notOwned db id (Identity.id user) →
  ∃ response, (∀ db', notOwned db' id (Identity.id user) →
                 run (Scoped.route r req) db' = (response, db'))
              ∧ writes (Scoped.route r req) db = 0%nat.
Proof.
  intros Hr Hnot. destruct r; try discriminate Hr; cbn [Scoped.route].
  - exists notFound. split; [intros db' ?|]; by apply get_user_not_mine.
  - exists (putNotMine req).
    split; [intros db' ?|]; by apply put_user_not_mine.
  - exists notFound. split; [intros db' ?|]; by apply delete_user_not_mine.
Qed.

End Foreign.


(** C1, as the code has it.  For a caller authenticated as account A and
    a record that exists under the requested id but belongs to another
    account: GET and DELETE /users/:id answer 404 "User not found"; so
    does PUT /users/:id when its body passes validation, and a PUT whose
    body does not is answered 400 with the validation errors.  On all
    three routes the answer is the one given when no record has that id,
    the store is left as it was and no writing call is issued. *)
Theorem foreign_record_not_found `{Collaborators} (req : Request.t)
    (user : Identity.t) (id : Z) (db : Db) :
  authenticated req user →
  parseInt (Request.id req) = Some id →
  (∃ u, u ∈ users db ∧ User.id u = id) →
  (∀ u, u ∈ users db → User.id u = id → User.ownerId u ≠ Identity.id user) →
  run (Scoped.get_user req) db = (notFound, db)
  ∧ run (Scoped.delete_user req) db = (notFound, db)
  ∧ (Validator.validationResult Scoped.put_chains (Request.body req) = [] →
     run (Scoped.put_user req) db = (notFound, db))
  ∧ ∀ r, withId r = true →
      (run (Scoped.route r req) db).2 = db
      ∧ writes (Scoped.route r req) db = 0%nat
      ∧ ∀ db0, (∀ u, u ∈ users db0 → User.id u ≠ id) →
               (run (Scoped.route r req) db0).1
               = (run (Scoped.route r req) db).1.
Proof.
  intros Hauth Hid (u0 & _ & Hu0) Hforeign.
  assert (Hrange : int4 id = true) by (rewrite <- Hu0; apply id_in_range).
  split; [by apply (get_user_not_mine req user id)|].
  split; [by apply (delete_user_not_mine req user id)|].
  split.
  - intros Hvalid.
    destruct (put_user_not_mine req user id Hauth Hid Hrange db Hforeign)
      as [-> _].
    unfold putNotMine. by rewrite Hvalid.
  - intros r Hr.
    destruct (id_route_not_mine req user id Hauth Hid Hrange r db Hr Hforeign)
      as (response & Hrun & Hwrites).
    rewrite (Hrun db Hforeign). split; [done|]. split; [done|].
    intros db0 Habsent. rewrite (Hrun db0); [done|].
    intros u Hin Hu. by destruct (Habsent u Hin).
Qed.

Lemma foreign_record_not_found_witness :
  run (Scoped.get_user (Demo.request (Some "Bearer tokA") "12" [])) Demo.db
  = (notFound, Demo.db).
Proof.
  apply (foreign_record_not_found
           (Demo.request (Some "Bearer tokA") "12" []) Demo.alice 12 Demo.db).
  - exists "tokA". by vm_compute.
  - reflexivity.
  - exists Demo.carol. split; [apply list_elem_of_here | reflexivity].
  - intros u Hin Hu.
    apply elem_of_cons in Hin as [-> | Hin]; [by vm_compute|].
    apply elem_of_cons in Hin as [-> | Hin]; [by vm_compute in Hu|].
    by apply elem_of_nil in Hin.
Defined.

(** C1 as it is worded fails for PUT: record 12 belongs to account 2, and
    account 1 sending PUT /users/12 with the age 200 is answered 400 with
    the validation error, not 404. *)
Lemma foreign_put_not_always_404 :
  ¬ (∀ (C : Collaborators) (req : Request.t) (user : Identity.t) (id : Z)
       (db : Db),
       authenticated req user →
       parseInt (Request.id req) = Some id →
       (∃ u, u ∈ users db ∧ User.id u = id) →
       (∀ u, u ∈ users db → User.id u = id →
             User.ownerId u ≠ Identity.id user) →
       status (run (Scoped.put_user req) db).1 = 404).
Proof.
  intros claim.
  specialize (claim Demo.collaborators
                (Demo.request (Some "Bearer tokA") "12" [("age", VNum 200)])
                Demo.alice 12 Demo.db).
  assert (Hstatus : status (run (Scoped.put_user
                     (Demo.request (Some "Bearer tokA") "12" [("age", VNum 200)]))
                     Demo.db).1 = 400) by reflexivity.
  rewrite claim in Hstatus; [discriminate Hstatus | | | |].
  - exists "tokA". by vm_compute.
  - reflexivity.
  - exists Demo.carol. split; [apply list_elem_of_here | reflexivity].
  - intros u Hin Hu.
    apply elem_of_cons in Hin as [-> | Hin]; [by vm_compute|].
    apply elem_of_cons in Hin as [-> | Hin]; [by vm_compute in Hu|].
    by apply elem_of_nil in Hin.
Qed.


(** *** Accounts: login and registration *)

Lemma findUnique_email (db : Db) e :
  exec (authUser_findUnique (Some (VStr e))) db
  = (Ok (head (filter (λ a, byEmail e a) (authUsers db))), db).
Proof. reflexivity. Qed.

Lemma byEmail_spec e a : byEmail e a ↔ AuthUser.email a = e.
Proof. unfold byEmail. apply bool_decide_spec. Qed.

Lemma findUnique_unknown (db : Db) e :
  e ∉ emails db → head (filter (λ a, byEmail e a) (authUsers db)) = None.
Proof.
  intros Hnot. apply head_None.
  destruct (filter _ _) as [|a l] eqn:Hf; [done|].
  assert (Ha : a ∈ a :: l) by apply list_elem_of_here.
  rewrite <- Hf in Ha. apply list_elem_of_filter in Ha as [He Hin].
  apply byEmail_spec in He. destruct Hnot. unfold emails.
  apply list_elem_of_fmap. by exists a.
Qed.

Lemma findUnique_known (db : Db) e :
  e ∈ emails db →
  ∃ a, head (filter (λ a, byEmail e a) (authUsers db)) = Some a
       ∧ a ∈ authUsers db ∧ AuthUser.email a = e.
Proof.
  intros Hin. unfold emails in Hin.
  apply list_elem_of_fmap in Hin as (a & -> & Hin).
  destruct (filter _ _) as [|a' l] eqn:Hf.
  - exfalso. eapply (filter_nil_not_elem_of _ _ a); [exact Hf| |exact Hin].
    by apply byEmail_spec.
  - exists a'. assert (Ha : a' ∈ a' :: l) by apply list_elem_of_here.
    rewrite <- Hf in Ha. apply list_elem_of_filter in Ha as [He Hin'].
    apply byEmail_spec in He. done.
Qed.

(** The unique index on the email holds whatever the handlers do: no
    call adds an account for an email that has one. *)
Lemma exec_emails_NoDup {X} (c : Call X) (db : Db) :
  NoDup (emails db) → NoDup (emails (exec c db).2).
Proof.
  intros Hnd. destruct c; cbn [exec]; try done.
  - by destruct (int4 id).
  - by destruct (int4 id).
  - destruct (newRow _ _); [|done]. by case_bool_decide.
  - destruct (wellTyped data); [|done]. destruct (int4 id); [|done].
    destruct (head _); [|done]. by destruct (nothingToSet data).
  - destruct (int4 id); [|done]. by destruct (head _).
  - by destruct (asString email).
  - destruct (asString email) as [e|]; [|done].
    case_bool_decide as Hin; [done|]. destruct (text e); [|done].
    unfold emails. cbn.
    rewrite fmap_app. cbn. apply NoDup_app. split; [done|]. split.
    + intros x Hx Hx'. apply list_elem_of_singleton in Hx' as ->. by destruct Hin.
    + apply NoDup_singleton.
Qed.

Lemma run_emails_NoDup (h : Handler) (db : Db) :
  NoDup (emails db) → NoDup (emails (run h db).2).
Proof.
  revert db. induction h as [r | X c k IH]; intros db Hnd; [done|].
  cbn [run]. apply IH. by apply exec_emails_NoDup.
Qed.

Section Accounts.
Context `{Collaborators}.

Lemma credentials_pass req e p :
  credentials req e p →
  negb (truthy (Request.body req !! "email"))
  || negb (truthy (Request.body req !! "password")) = false.
Proof.
  intros (-> & -> & He & Hp). rewrite !truthy_string.
  by rewrite !bool_decide_false.
Qed.

Lemma login_unknown_email req db e p :
  credentials req e p → e ∉ emails db →
  run (Scoped.login req) db = (invalidCredentials, db).
Proof.
  intros Hc Hnot. unfold Scoped.login.
  rewrite (credentials_pass _ _ _ Hc). destruct Hc as (-> & -> & _).
  cbn [run]. rewrite findUnique_email. cbn [fst snd].
  by rewrite findUnique_unknown.
Qed.

Lemma login_wrong_password req db e p :
  credentials req e p → e ∈ emails db →
  (∀ a, a ∈ authUsers db → AuthUser.email a = e →
        bcrypt_compare p (AuthUser.passwordHash a) = false) →
  run (Scoped.login req) db = (invalidCredentials, db).
Proof.
  intros Hc Hin Hwrong. unfold Scoped.login.
  rewrite (credentials_pass _ _ _ Hc). destruct Hc as (-> & -> & _).
  cbn [run]. rewrite findUnique_email. cbn [fst snd].
  destruct (findUnique_known db e Hin) as (a & -> & Ha & He).
  cbn [asString]. by rewrite (Hwrong a Ha He).
Qed.

Lemma register_existing req db e p :
  credentials req e p → e ∈ emails db →
  run (Scoped.register req) db
  = (json 400 (message "Email already exists"), db).
Proof.
  intros Hc Hin. unfold Scoped.register.
  rewrite (credentials_pass _ _ _ Hc). destruct Hc as (-> & -> & _).
  cbn [run]. rewrite findUnique_email. cbn [fst snd].
  by destruct (findUnique_known db e Hin) as (a & -> & _).
Qed.

(** [create] on an email that is taken throws P2002 and adds no row. *)
Lemma create_taken (db : Db) e h :
  e ∈ emails db →
  exec (authUser_create (Some (VStr e)) h) db
  = (Throw P2002, skipAuthUserId db).
Proof. intros Hin. cbn. by rewrite bool_decide_true. Qed.

Lemma register_race req db e p (f : Db → Db) :
  credentials req e p → e ∉ emails db → e ∈ emails (f db) →
  runBetween [f] (Scoped.register req) db
  = (json 500 (message "Registration failed"), skipAuthUserId (f db)).
Proof.
  intros Hc Hnot Hin. unfold Scoped.register.
  rewrite (credentials_pass _ _ _ Hc). destruct Hc as (-> & -> & _).
  cbn [runBetween]. rewrite findUnique_email. cbn [fst snd].
  rewrite findUnique_unknown by done. cbn [asString run].
  by rewrite create_taken.
Qed.

End Accounts.

(** The two 401 branches of POST /login.  Two requests that both carry
    a non-empty email and password, both strings, the first with an email
    that has no account, the second with the email of an account and a
    password that bcrypt does not verify against its hash, are answered
    alike: 401 with the body [{ message: "Invalid email or password" }],
    the store untouched. *)
Lemma login_failures_identical `{Collaborators} (req1 req2 : Request.t)
    (db1 db2 : Db) (e1 p1 e2 p2 : string) :
  credentials req1 e1 p1 →
  credentials req2 e2 p2 →
  e1 ∉ emails db1 →
  e2 ∈ emails db2 →
  (∀ a, a ∈ authUsers db2 → AuthUser.email a = e2 →
        bcrypt_compare p2 (AuthUser.passwordHash a) = false) →
  run (Scoped.login req1) db1 = (invalidCredentials, db1)
  ∧ run (Scoped.login req2) db2 = (invalidCredentials, db2)
  ∧ (run (Scoped.login req1) db1).1 = (run (Scoped.login req2) db2).1.
Proof.
  intros Hc1 Hc2 Hunknown Hknown Hwrong.
  rewrite (login_unknown_email req1 db1 e1 p1) by done.
  rewrite (login_wrong_password req2 db2 e2 p2) by done.
  done.
Qed.

(** A password that is a number other than 0 passes the guard on missing
    fields; the handler then answers an email without account before it
    looks at the password, and hands the number to bcrypt's [compare] for
    the email of an account, where it throws. *)
Lemma login_number_password `{Collaborators} (req1 req2 : Request.t)
    (db : Db) (e1 e2 : string) (n : Z) :
  Request.body req1 !! "email" = Some (VStr e1) → e1 ≠ "" →
  Request.body req2 !! "email" = Some (VStr e2) → e2 ≠ "" →
  Request.body req1 !! "password" = Some (VNum n) →
  Request.body req2 !! "password" = Some (VNum n) →
  n ≠ 0 →
  e1 ∉ emails db →
  e2 ∈ emails db →
  run (Scoped.login req1) db = (invalidCredentials, db)
  ∧ run (Scoped.login req2) db = (json 400 (message "Login failed"), db).
Proof.
  intros He1 Hne1 He2 Hne2 Hp1 Hp2 Hn Hunknown Hknown.
  assert (Hnum : truthy (Some (VNum n)) = true).
  { cbn. apply negb_true_iff. by apply Z.eqb_neq. }
  unfold Scoped.login. rewrite He1, He2, Hp1, Hp2, Hnum, !truthy_string.
  rewrite !bool_decide_false by done. cbn [negb orb run].
  rewrite !findUnique_email. cbn [fst snd].
  rewrite findUnique_unknown by done.
  by destruct (findUnique_known db e2 Hknown) as (a & -> & _).
Qed.

(** C5 fails on the code.  With the password 5, a number, the login for
    "ghost@x.com", which has no account, is answered 401 "Invalid email
    or password", and the login for "a@x.com", which has one, is answered
    400 "Login failed": bcrypt's [compare] throws on data that is not a
    string, and the handler's [catch] answers what it caught.  The two
    failures differ in status and body, and the difference tells the
    caller that the email has an account. *)
Theorem login_number_password_leaks :
  run (Scoped.login (Demo.request None ""
         [("email", VStr "ghost@x.com"); ("password", VNum 5)])) Demo.db
  = (invalidCredentials, Demo.db)
  ∧ run (Scoped.login (Demo.request None ""
           [("email", VStr "a@x.com"); ("password", VNum 5)])) Demo.db
    = (json 400 (message "Login failed"), Demo.db)
  ∧ status invalidCredentials = 401.
Proof.
  split; [|split; [|reflexivity]];
    apply (login_number_password
             (Demo.request None ""
                [("email", VStr "ghost@x.com"); ("password", VNum 5)])
             (Demo.request None ""
                [("email", VStr "a@x.com"); ("password", VNum 5)])
             Demo.db "ghost@x.com" "a@x.com" 5); try done;
    try apply list_elem_of_here;
    intros Hin; repeat (apply elem_of_cons in Hin as [Heq | Hin];
                        [discriminate Heq|]); by apply elem_of_nil in Hin.
Qed.

(** C6, as the code has it.  When an account with the email exists,
    POST /register with that email and a password answers 400 "Email
    already exists" and leaves the store as it was.  When the handler's
    own look-up finds nothing and other requests commit an account with
    that email before the handler's [create], the store throws P2002
    and adds no row, and the handler answers 500 "Registration failed":
    the generic error mapping knows P2025 only.  In no case does the
    request leave two accounts with one email. *)
Theorem register_duplicate `{Collaborators} (req : Request.t) (db : Db)
    (e p : string) :
  credentials req e p →
  (e ∈ emails db →
   run (Scoped.register req) db
   = (json 400 (message "Email already exists"), db))
  ∧ (∀ f : Db → Db, e ∉ emails db → e ∈ emails (f db) →
       (runBetween [f] (Scoped.register req) db).1
       = json 500 (message "Registration failed")
       ∧ authUsers (runBetween [f] (Scoped.register req) db).2
         = authUsers (f db)
       ∧ users (runBetween [f] (Scoped.register req) db).2 = users (f db))
  ∧ (NoDup (emails db) → NoDup (emails (run (Scoped.register req) db).2)).
Proof.
  intros Hc. split; [|split].
  - by apply (register_existing req db e p).
  - intros f Hnot Hin. by rewrite (register_race req db e p).
  - apply run_emails_NoDup.
Qed.

Lemma register_duplicate_witness :
  run (Scoped.register (Demo.request None ""
         [("email", VStr "a@x.com"); ("password", VStr "again")])) Demo.db
  = (json 400 (message "Email already exists"), Demo.db).
Proof.
  apply (register_duplicate
           (Demo.request None ""
              [("email", VStr "a@x.com"); ("password", VStr "again")])
           Demo.db "a@x.com" "again").
  - by vm_compute.
  - apply list_elem_of_here.
Defined.

(** C6 as it is worded fails in the race it names: two registrations of
    "n@x.com", the second committing between the look-up and the
    [create] of the first; the first is answered 500, not 400. *)
Lemma register_race_is_not_conflict :
  ¬ (∀ (C : Collaborators) (req : Request.t) (db : Db) (e p : string)
       (f : Db → Db),
       credentials req e p →
       e ∉ emails db → e ∈ emails (f db) →
       status (runBetween [f] (Scoped.register req) db).1 = 400).
Proof.
  intros claim.
  specialize (claim Demo.collaborators
    (Demo.request None "" [("email", VStr "n@x.com"); ("password", VStr "pw123")])
    Demo.db "n@x.com" "pw123"
    (λ db, (run (Scoped.register
                   (Demo.request None ""
                      [("email", VStr "n@x.com"); ("password", VStr "other")]))
                db).2)).
  assert (Hstatus : status (runBetween
      [λ db, (run (Scoped.register
                     (Demo.request None ""
                        [("email", VStr "n@x.com"); ("password", VStr "other")]))
                  db).2]
      (Scoped.register
         (Demo.request None ""
            [("email", VStr "n@x.com"); ("password", VStr "pw123")]))
      Demo.db).1 = 500) by reflexivity.
  rewrite claim in Hstatus; [discriminate Hstatus | | |].
  - by vm_compute.
  - intros Hin. repeat (apply elem_of_cons in Hin as [Heq | Hin];
                        [discriminate Heq|]). by apply elem_of_nil in Hin.
  - vm_compute. do 2 apply list_elem_of_further. apply list_elem_of_here.
Qed.


(** *** The derived flag [adult] *)

Lemma isAdult_number a : isAdult (Some a) = (18 <=? a).
Proof. reflexivity. Qed.

Lemma newRow_fields i d row :
  newRow i d = Some row →
  User.id row = i
  ∧ UserCreateInput.name d = Some (VStr (User.name row))
  ∧ UserCreateInput.email d = Some (VStr (User.email row))
  ∧ UserCreateInput.age d = Some (User.age row)
  ∧ UserCreateInput.role d = Some (VStr (User.role row))
  ∧ User.adult row = UserCreateInput.adult d
  ∧ User.ownerId row = UserCreateInput.owner d.
Proof.
  unfold newRow, asText. destruct d as [n e a r ad o]; cbn.
  destruct n as [[| | |n]|]; try done. cbn. destruct (text n); try done.
  destruct e as [[| | |e]|]; try done. cbn. destruct (text e); try done.
  destruct a as [a|]; try done. destruct r as [[| | |r]|]; try done.
  cbn. destruct (text r); try done. cbn.
  destruct (decide _); [|done]. by intros [= <-].
Qed.

Lemma patch_age d u u' :
  patch d u = Some u' →
  User.age u' = default (User.age u) (mjoin (UserUpdateInput.age d))
  ∧ (UserUpdateInput.age d = None ∨ ∃ a, UserUpdateInput.age d = Some (Some a))
  ∧ User.adult u' = default (User.adult u) (UserUpdateInput.adult d)
  ∧ User.id u' = User.id u ∧ User.ownerId u' = User.ownerId u.
Proof.
  unfold patch. destruct d as [n e a r ad]; cbn.
  destruct (setString (User.name u) n); [|done].
  destruct (setString (User.email u) e); [|done]. cbn.
  destruct a as [[a|]|]; cbn; try done;
    (destruct (setString (User.role u) r); [|done]); cbn;
    intros [= <-]; cbn; repeat split; eauto.
Qed.

Lemma patch_derived d u u' :
  UserUpdateInput.adult d = isAdult <$> UserUpdateInput.age d →
  User.adult u = (18 <=? User.age u) →
  patch d u = Some u' → User.adult u' = (18 <=? User.age u').
Proof.
  intros Hd Hu Hp. apply patch_age in Hp as (Hage & Hcases & Hadult & _).
  rewrite Hage, Hadult, Hd.
  destruct Hcases as [-> | [a ->]]; cbn; [done|]. apply isAdult_number.
Qed.

Lemma updated_derived d u :
  UserUpdateInput.adult d = isAdult <$> UserUpdateInput.age d →
  User.adult u = (18 <=? User.age u) →
  User.adult (updated d u) = (18 <=? User.age (updated d u)).
Proof.
  intros Hd Hu. unfold updated.
  destruct (patch d u) as [u'|] eqn:Hp; [|done]. cbn.
  by apply (patch_derived d u).
Qed.

(** Every derived call keeps the invariant. *)
Lemma exec_adultInvariant {X} (c : Call X) (db : Db) :
  derived c → adultInvariant db → adultInvariant (exec c db).2.
Proof.
  intros Hc Hinv. destruct c; cbn [exec]; try done.
  - (* findFirst *)
    by destruct (int4 id).
  - (* findUnique *)
    by destruct (int4 id).
  - (* create *)
    destruct (newRow _ _) as [row|] eqn:Hrow; [|done].
    case_bool_decide; [|done]. intros u Hu. cbn in Hu.
    apply elem_of_app in Hu as [Hu | Hu]; [by apply Hinv|].
    apply list_elem_of_singleton in Hu as ->.
    apply newRow_fields in Hrow as (_ & _ & _ & Hage & _ & Hadult & _).
    cbn in Hc. by rewrite Hadult, Hc, Hage.
  - (* update *)
    destruct (wellTyped data); [|done]. destruct (int4 id); [|done].
    destruct (head _) as [u0|] eqn:Hh; [|done].
    destruct (nothingToSet data); [done|]. intros u Hu. cbn in Hu.
    apply head_filter_elem in Hh as [Hu0 _].
    apply elem_of_app in Hu as [Hu | Hu].
    + apply list_elem_of_filter in Hu as [_ Hu]. by apply Hinv.
    + apply list_elem_of_singleton in Hu as ->.
      apply updated_derived; [done|by apply Hinv].
  - (* delete *)
    destruct (int4 id); [|done].
    destruct (head _); [|done]. intros u Hu. cbn in Hu.
    apply list_elem_of_filter in Hu as [_ Hu]. by apply Hinv.
  - (* deleteMany *)
    intros u Hu. cbn in Hu.
    apply list_elem_of_filter in Hu as [_ Hu]. by apply Hinv.
  - (* authUser.findUnique *)
    by destruct (asString email).
  - (* authUser.create *)
    destruct (asString email) as [e|]; [|done]. case_bool_decide; [done|].
    by destruct (text e).
Qed.

Lemma run_adultInvariant (h : Handler) (db : Db) :
  derivesAdult h → adultInvariant db → adultInvariant (run h db).2.
Proof.
  revert db. induction h as [r | X c k IH]; intros db Hh Hinv; [done|].
  destruct Hh as [Hc Hk]. cbn [run]. apply IH; [done|].
  by apply exec_adultInvariant.
Qed.

Section Derived.
Context `{Collaborators}.

Lemma newUser_derived user b : derived (user_create (Scoped.newUser user b)).
Proof. reflexivity. Qed.

Lemma updateData_derived i b : derived (user_update i (Scoped.updateData b)).
Proof. reflexivity. Qed.

Lemma authenticateToken_derivesAdult req next :
  (∀ user, derivesAdult (next user)) →
  derivesAdult (Scoped.authenticateToken req next).
Proof.
  intros Hnext. unfold Scoped.authenticateToken.
  destruct (negb _); [done|]. by destruct (jwt_verify _).
Qed.

(** Every route of the scoped module writes [adult] as derived. *)
Lemma route_derivesAdult r req : derivesAdult (Scoped.route r req).
Proof.
  destruct r; cbn [Scoped.route];
    unfold Scoped.hello, Scoped.get_users, Scoped.get_user,
      Scoped.post_users, Scoped.put_user, Scoped.delete_user,
      Scoped.delete_users, Scoped.register, Scoped.login;
    try (apply authenticateToken_derivesAdult; intros user);
    repeat first
      [ done
      | progress cbn [derivesAdult derived]
      | split
      | intros [[?|]|?]
      | intros [?|?]
      | match goal with
        | |- derivesAdult (match ?x with _ => _ end) => destruct x
        | |- derivesAdult (if ?x then _ else _) => destruct x
        end ].
Qed.

End Derived.

Lemma reachable_adultInvariant `{Collaborators} db :
  reachable db → adultInvariant db.
Proof.
  induction 1 as [|db r req _ IH].
  - intros u Hu. by apply elem_of_nil in Hu.
  - apply run_adultInvariant; [apply route_derivesAdult | exact IH].
Qed.

(** The bodies are read through the four fields only. *)
Lemma newUser_sameFields `{Collaborators} user b1 b2 :
  sameFields b1 b2 → Scoped.newUser user b1 = Scoped.newUser user b2.
Proof. intros (Hn & He & Ha & Hr). unfold Scoped.newUser. by rewrite Hn, He, Ha, Hr. Qed.

Lemma updateData_sameFields `{Collaborators} b1 b2 :
  sameFields b1 b2 → Scoped.updateData b1 = Scoped.updateData b2.
Proof. intros (Hn & He & Ha & Hr). unfold Scoped.updateData. by rewrite Hn, He, Ha, Hr. Qed.

(** C7.  In every state the scoped module reaches from the empty store,
    each resource record has adult = (age >= 18), and every further
    request keeps it so.  POST /users computes [adult] from the age it
    stores; PUT /users/:id recomputes it from the new age whenever the
    body has an age, and leaves both age and [adult] alone when it has
    none; neither reads a field "adult" of the body. *)
Theorem adult_derived_from_age `{Collaborators} (db : Db) :
  reachable db →
  adultInvariant db
  ∧ (∀ r req, adultInvariant (run (Scoped.route r req) db).2)
  ∧ (∀ user b i row,
       newRow i (Scoped.newUser user b) = Some row →
       parseInt (ToString (b !! "age")) = Some (User.age row)
       ∧ User.adult row = (18 <=? User.age row))
  ∧ (∀ b v u u',
       b !! "age" = Some v → patch (Scoped.updateData b) u = Some u' →
       parseInt (ToString (Some v)) = Some (User.age u')
       ∧ User.adult u' = (18 <=? User.age u'))
  ∧ (∀ b u u',
       b !! "age" = None → patch (Scoped.updateData b) u = Some u' →
       User.age u' = User.age u ∧ User.adult u' = User.adult u)
  ∧ (∀ user b1 b2,
       sameFields b1 b2 →
       Scoped.newUser user b1 = Scoped.newUser user b2
       ∧ Scoped.updateData b1 = Scoped.updateData b2).
Proof.
  intros Hreach.
  split; [by apply reachable_adultInvariant|].
  split.
  { intros r req. apply reachable_adultInvariant. by constructor. }
  split.
  { intros user b i row Hrow.
    apply newRow_fields in Hrow as (_ & _ & _ & Hage & _ & Hadult & _).
    cbn in Hage, Hadult. by rewrite Hadult, Hage. }
  split.
  { intros b v u u' Hv Hp.
    apply patch_age in Hp as (Hage & Hcases & Hadult & _).
    unfold Scoped.updateData in *. cbn in Hage, Hcases, Hadult.
    rewrite Hv in *. cbn in *. destruct Hcases as [? | [a Ha]]; [done|].
    injection Ha as Ha. rewrite Ha in *. cbn in *. by subst. }
  split.
  { intros b u u' Hv Hp.
    apply patch_age in Hp as (Hage & _ & Hadult & _).
    unfold Scoped.updateData in *. cbn in Hage, Hadult.
    rewrite Hv in *. by cbn in *. }
  intros user b1 b2 Hsame.
  split; [by apply newUser_sameFields | by apply updateData_sameFields].
Qed.

(** The walk-through of the specification: POST /users with the age 17,
    then PUT /users/:id with the age 19 and a field "adult" that is not
    read. *)
Lemma adult_derived_from_age_witness :
  adultInvariant
    (run (Scoped.route PutUser
            (Demo.request (Some "Bearer tokA") "1"
               [("age", VNum 19); ("adult", VBool false)]))
       (run (Scoped.route PostUsers
               (Demo.request (Some "Bearer tokA") ""
                  [("name", VStr "Bob"); ("email", VStr "b@x.com");
                   ("age", VNum 17); ("role", VStr "user")]))
          (run (Scoped.route Register
                  (Demo.request None ""
                     [("email", VStr "a@x.com"); ("password", VStr "pw123")]))
             Prisma.empty).2).2).2.
Proof.
  refine (proj1 (adult_derived_from_age _ _)).
  do 3 apply reachable_step. apply reachable_empty.
Defined.

Example adult_walk_through :
  users (run (Scoped.route PutUser
            (Demo.request (Some "Bearer tokA") "1"
               [("age", VNum 19); ("adult", VBool false)]))
       (run (Scoped.route PostUsers
               (Demo.request (Some "Bearer tokA") ""
                  [("name", VStr "Bob"); ("email", VStr "b@x.com");
                   ("age", VNum 17); ("role", VStr "user")]))
          (run (Scoped.route Register
                  (Demo.request None ""
                     [("email", VStr "a@x.com"); ("password", VStr "pw123")]))
             Prisma.empty).2).2).2
  = [ {| User.id := 1; User.name := "Bob"; User.email := "b@x.com";
         User.age := 19; User.role := "user"; User.adult := true;
         User.ownerId := 1; User.id_int4 := I |} ].
Proof. reflexivity. Qed.

(** *** POST /users *)

Lemma validationResult_sameFields `{Collaborators} n e a r (b1 b2 : Body) :
  sameFields b1 b2 →
  Validator.validationResult (Validator.chains n e a r) b1
  = Validator.validationResult (Validator.chains n e a r) b2.
Proof.
  intros (Hn & He & Ha & Hr).
  unfold Validator.validationResult, Validator.chains.
  rewrite !bind_cons. unfold Validator.runChain.
  cbn [Validator.field Validator.optional Validator.checks].
  by rewrite Hn, He, Ha, Hr.
Qed.

Lemma handlePrismaError_status err action :
  status (Scoped.handlePrismaError err action) ≠ 201.
Proof.
  unfold Scoped.handlePrismaError. case_bool_decide; [done|].
  by destruct (truthy _).
Qed.

(** C10.  Two POST /users requests with the same Authorization header
    and the same name, email, age and role are the same handler, whatever
    else their bodies hold: they issue the same store calls and, on equal
    stores, give the same response and the same store.  When a record is
    created, it is appended with the caller's token id as its owner, the
    four fields as sent and [adult] computed from the age. *)
Theorem post_users_ignores_other_fields `{Collaborators}
    (req1 req2 : Request.t) :
  Request.authorization req1 = Request.authorization req2 →
  sameFields (Request.body req1) (Request.body req2) →
  Scoped.post_users req1 = Scoped.post_users req2
  ∧ (∀ db, run (Scoped.post_users req1) db = run (Scoped.post_users req2) db)
  ∧ (∀ user db,
       authenticated req1 user →
       status (run (Scoped.post_users req1) db).1 = 201 →
       ∃ row,
         run (Scoped.post_users req1) db
         = (json 201 (User.toJson row),
            {| users := users db ++ [row]; authUsers := authUsers db;
               userSeq := userSeq db + 1; authUserSeq := authUserSeq db |})
         ∧ User.id row = userSeq db
         ∧ User.ownerId row = Identity.id user
         ∧ Request.body req1 !! "name" = Some (VStr (User.name row))
         ∧ Request.body req1 !! "email" = Some (VStr (User.email row))
         ∧ parseInt (ToString (Request.body req1 !! "age")) = Some (User.age row)
         ∧ Request.body req1 !! "role" = Some (VStr (User.role row))
         ∧ User.adult row = (18 <=? User.age row)).
Proof.
  intros Hauth Hsame.
  assert (Heq : Scoped.post_users req1 = Scoped.post_users req2).
  { unfold Scoped.post_users, Scoped.authenticateToken, Scoped.post_chains.
    rewrite Hauth, (validationResult_sameFields _ _ _ _ _ _ Hsame).
    destruct (negb _); [done|]. destruct (jwt_verify _) as [user|]; [|done].
    by rewrite (newUser_sameFields user _ _ Hsame). }
  split; [exact Heq|]. split; [intros db; by rewrite Heq|].
  intros user db Huser. unfold Scoped.post_users.
  rewrite (authenticateToken_next _ user) by done.
  destruct (Validator.validationResult _ _); [|by intros [=]].
  cbn [run exec].
  destruct (newRow _ _) as [row|] eqn:Hrow; cbn [fst snd run];
    [|intros Hs; by apply handlePrismaError_status in Hs].
  case_bool_decide; cbn [fst snd run];
    [|intros Hs; by apply handlePrismaError_status in Hs].
  intros _. exists row.
  apply newRow_fields in Hrow as (Hi & Hn & He & Ha & Hr & Had & Ho).
  cbn in Hn, He, Ha, Hr, Had, Ho.
  repeat split; try done. by rewrite Had, Ha.
Qed.

(** Account 1 cannot create a record for account 2 by sending ownerId,
    nor choose its id or its [adult]. *)
Lemma post_users_ignores_other_fields_witness :
  run (Scoped.post_users
         (Demo.request (Some "Bearer tokA") ""
            [("name", VStr "Bob"); ("email", VStr "b@x.com");
             ("age", VNum 17); ("role", VStr "user")])) Demo.db
  = run (Scoped.post_users
           (Demo.request (Some "Bearer tokA") ""
              [("name", VStr "Bob"); ("email", VStr "b@x.com");
               ("age", VNum 17); ("role", VStr "user");
               ("ownerId", VNum 2); ("id", VNum 99); ("adult", VBool true)]))
        Demo.db.
Proof.
  apply (post_users_ignores_other_fields
           (Demo.request (Some "Bearer tokA") ""
              [("name", VStr "Bob"); ("email", VStr "b@x.com");
               ("age", VNum 17); ("role", VStr "user")])
           (Demo.request (Some "Bearer tokA") ""
              [("name", VStr "Bob"); ("email", VStr "b@x.com");
               ("age", VNum 17); ("role", VStr "user");
               ("ownerId", VNum 2); ("id", VNum 99); ("adult", VBool true)])).
  - reflexivity.
  - by vm_compute.
Defined.

Example post_users_spoof_attempt :
  (run (Scoped.post_users
          (Demo.request (Some "Bearer tokA") ""
             [("name", VStr "Bob"); ("email", VStr "b@x.com");
              ("age", VNum 17); ("role", VStr "user");
              ("ownerId", VNum 2); ("id", VNum 99); ("adult", VBool true)]))
       Demo.db).1
  = json 201 (User.toJson
      {| User.id := 14; User.name := "Bob"; User.email := "b@x.com";
         User.age := 17; User.role := "user"; User.adult := false;
         User.ownerId := 1; User.id_int4 := I |}).
Proof. reflexivity. Qed.


(** *** The two route modules side by side *)

Lemma filter_on_members {A} (P Q : A → Prop) `{∀ x, Decision (P x)}
    `{∀ x, Decision (Q x)} (l : list A) :
  (∀ x, x ∈ l → P x ↔ Q x) → filter P l = filter Q l.
Proof.
  induction l as [|x l IH]; intros Hl; [done|].
  rewrite !filter_cons.
  assert (Hx : P x ↔ Q x) by (apply Hl; apply list_elem_of_here).
  rewrite IH by (intros y Hy; apply Hl; by apply list_elem_of_further).
  destruct (decide (P x)), (decide (Q x)); tauto || done.
Qed.

Lemma filter_all {A} (P : A → Prop) `{∀ x, Decision (P x)} (l : list A) :
  (∀ x, x ∈ l → P x) → filter P l = l.
Proof.
  induction l as [|x l IH]; intros Hl; [done|].
  rewrite filter_cons_True by (apply Hl; apply list_elem_of_here).
  rewrite IH; [done|]. intros y Hy. apply Hl. by apply list_elem_of_further.
Qed.

Lemma filter_none {A} (P : A → Prop) `{∀ x, Decision (P x)} (l : list A) :
  (∀ x, x ∈ l → ¬ P x) → filter P l = [].
Proof.
  induction l as [|x l IH]; intros Hl; [done|].
  rewrite filter_cons_False by (apply Hl; apply list_elem_of_here).
  apply IH. intros y Hy. apply Hl. by apply list_elem_of_further.
Qed.

Lemma filter_all_owned (db : Db) o :
  allOwnedBy db o →
  filter (λ u, owned (Some o) u) (users db) = users db
  ∧ filter (λ u, negb (owned (Some o) u)) (users db) = []
  ∧ ∀ i, filter (λ u, hasId i u && owned (Some o) u) (users db)
         = filter (λ u, hasId i u) (users db).
Proof.
  intros Hall.
  assert (Ho : ∀ u, u ∈ users db → owned (Some o) u = true).
  { intros u Hu. apply Is_true_true, owned_spec. by apply Hall. }
  split; [|split].
  - apply filter_all. intros u Hu. by rewrite (Ho u Hu).
  - apply filter_none. intros u Hu. rewrite (Ho u Hu). cbn. tauto.
  - intros i. apply filter_on_members. intros u Hu. rewrite (Ho u Hu).
    by rewrite andb_true_r.
Qed.

Section Modules.
Context `{Collaborators}.
Variables (req : Request.t) (user : Identity.t) (db : Db).
Hypothesis Hauth : authenticated req user.
Hypothesis Hall : allOwnedBy db (Identity.id user).
Hypothesis Hkey : keyInRange (Request.id req).

Lemma get_users_agree :
  run (Scoped.get_users req) db = run (Unscoped.get_users req) db.
Proof.
  unfold Scoped.get_users, Unscoped.get_users.
  rewrite (authenticateToken_next _ user) by done. step.
  destruct (filter_all_owned db _ Hall) as (-> & _).
  cbn [owned]. by rewrite filter_all.
Qed.

Lemma get_user_agree :
  run (Scoped.get_user req) db = run (Unscoped.get_user req) db.
Proof.
  unfold Scoped.get_user, Unscoped.get_user.
  rewrite (authenticateToken_next _ user) by done.
  destruct (parseInt _) as [i|] eqn:Hi; [|done]. cbn [run].
  rewrite exec_findFirst, exec_findUnique by by apply Hkey.
  destruct (filter_all_owned db _ Hall) as (_ & _ & ->). cbn [fst snd].
  by destruct (head _).
Qed.

Lemma delete_user_agree :
  run (Scoped.delete_user req) db = run (Unscoped.delete_user req) db.
Proof.
  unfold Scoped.delete_user, Unscoped.delete_user.
  rewrite (authenticateToken_next _ user),
    (unscoped_authenticateToken_next _ user) by done.
  destruct (parseInt _) as [i|] eqn:Hi; [|done]. cbn [run].
  rewrite exec_findFirst, !exec_delete by by apply Hkey.
  destruct (filter_all_owned db _ Hall) as (_ & _ & ->). cbn [fst snd].
  destruct (head _) eqn:Hhead; cbn [run fst snd];
    by rewrite ?exec_delete, ?Hhead by by apply Hkey.
Qed.

Lemma delete_users_differ :
  (run (Scoped.delete_users req) db).1
  = json 200 (JObj [("deleted", JNum (Z.of_nat (length (users db))))])
  ∧ (run (Unscoped.delete_users req) db).1 = send 204
  ∧ (run (Scoped.delete_users req) db).2 = withUsers db []
  ∧ (run (Unscoped.delete_users req) db).2 = withUsers db [].
Proof.
  unfold Scoped.delete_users, Unscoped.delete_users.
  rewrite (authenticateToken_next _ user),
    (unscoped_authenticateToken_next _ user) by done. step.
  destruct (filter_all_owned db _ Hall) as (-> & -> & _).
  repeat split. cbn [owned negb]. f_equal.
  apply filter_none. by intros u _ [].
Qed.

End Modules.

Section Unguarded.
Context `{Collaborators}.
Variables (req : Request.t) (db : Db) (e p : string).
Hypothesis Hc : credentials req e p.
Hypothesis Htext : text e = true.

Lemma register_agree :
  run (Scoped.register req) db = run (Unscoped.register req) db.
Proof.
  unfold Scoped.register, Unscoped.register.
  rewrite (credentials_pass _ _ _ Hc). destruct Hc as (-> & -> & _).
  cbn [run]. rewrite findUnique_email. cbn [fst snd].
  destruct (head _); [done|]. cbn [asString run exec].
  case_bool_decide; [done|]. by rewrite Htext.
Qed.

Lemma login_agree :
  run (Scoped.login req) db = run (Unscoped.login req) db
  ∨ ∃ a, run (Scoped.login req) db
         = (json 200 (JObj [("token", JStr (jwt_sign a "300000"))]), db)
         ∧ run (Unscoped.login req) db
           = (json 200 (JObj [("token", JStr (jwt_sign a "1h"))]), db).
Proof.
  unfold Scoped.login, Unscoped.login.
  rewrite (credentials_pass _ _ _ Hc). destruct Hc as (-> & -> & _).
  cbn [run]. rewrite findUnique_email. cbn [fst snd].
  destruct (head _) as [a|]; [|by left]. cbn [asString].
  destruct (bcrypt_compare _ _); [|by left].
  right. by eexists.
Qed.

End Unguarded.

Lemma skipped_text v :
  textOrAbsent v →
  Validator.skipped Validator.IfFalsy v
  = Validator.skipped Validator.IfUndefined v.
Proof.
  intros [-> | (s & -> & Hs & _)]; [done|]. unfold Validator.skipped.
  rewrite truthy_string, (bool_decide_false (s = "")) by done.
  by rewrite bool_decide_false.
Qed.

Lemma skipped_not_null v :
  v ≠ Some VNull →
  Validator.skipped Validator.IfNullable v
  = Validator.skipped Validator.IfUndefined v.
Proof.
  intros Hv. unfold Validator.skipped. destruct v as [v|].
  - rewrite !bool_decide_false; [done|done|]. by intros [? | ?].
  - rewrite !bool_decide_true; [done|done|]. by left.
Qed.

Lemma put_chains_agree `{Collaborators} (b : Body) :
  plainUpdate b →
  Validator.validationResult Unscoped.put_chains b
  = Validator.validationResult Scoped.put_chains b.
Proof.
  intros (Hn & He & Hr & Ha).
  unfold Validator.validationResult, Unscoped.put_chains, Scoped.put_chains,
    Validator.chains.
  rewrite !bind_cons. unfold Validator.runChain.
  cbn [Validator.field Validator.optional Validator.checks].
  by rewrite !skipped_text, skipped_not_null.
Qed.

(** An age that passes [isInt] is one [parseInt] reads a number from. *)
Lemma isInt_parseInt lo hi v :
  Validator.isInt lo hi (Some v) = true → is_Some (parseInt (ToString (Some v))).
Proof.
  unfold Validator.isInt. intros Hint.
  destruct (Validator.numeral _) as [n|] eqn:Hn; [|done].
  apply integerLiteral_parseInt. unfold integerLiteral.
  destruct v; try (by rewrite <- Hn at 1 || by eexists); cbn in Hn; done.
Qed.

Lemma text_setString old v : textOrAbsent v → is_Some (setString old v).
Proof.
  intros [-> | (s & -> & _ & Hs)]; [by eexists|].
  unfold setString, asText. cbn. rewrite Hs. by eexists.
Qed.

(** After validation, the data PUT hands to [update] is data the store
    takes. *)
Lemma updateData_wellTyped `{Collaborators} (b : Body) :
  plainUpdate b →
  Validator.validationResult Scoped.put_chains b = [] →
  wellTyped (Scoped.updateData b) = true.
Proof.
  intros (Hn & He & Hr & Ha) Hvalid.
  unfold wellTyped, Scoped.updateData.
  cbn [UserUpdateInput.name UserUpdateInput.email UserUpdateInput.age
       UserUpdateInput.role].
  rewrite !bool_decide_true; [done | by apply text_setString | |
                              by apply text_setString | by apply text_setString].
  destruct (b !! "age") as [v|] eqn:Hage; [|by eexists]. cbn.
  unfold Validator.validationResult, Scoped.put_chains, Validator.chains in Hvalid.
  rewrite !bind_cons in Hvalid.
  apply app_nil in Hvalid as [_ Hvalid]. apply app_nil in Hvalid as [_ Hvalid].
  apply app_nil in Hvalid as [Hvalid _].
  unfold Validator.runChain in Hvalid.
  cbn [Validator.field Validator.optional Validator.checks] in Hvalid.
  rewrite Hage in Hvalid. cbn in Hvalid.
  destruct (Validator.isInt 0 125 (Some v)) eqn:Hint; [|done].
  by apply isInt_parseInt in Hint.
Qed.

Lemma put_user_agree `{Collaborators} (req : Request.t) (user : Identity.t)
    (db : Db) :
  authenticated req user → allOwnedBy db (Identity.id user) →
  keyInRange (Request.id req) →
  plainUpdate (Request.body req) →
  run (Scoped.put_user req) db = run (Unscoped.put_user req) db.
Proof.
  intros Hauth Hall Hkey Hplain. unfold Scoped.put_user, Unscoped.put_user.
  rewrite (authenticateToken_next _ user),
    (unscoped_authenticateToken_next _ user) by done.
  destruct (parseInt _) as [i|] eqn:Hi; [|done]. apply Hkey in Hi.
  rewrite put_chains_agree by done.
  destruct (Validator.validationResult _ _) eqn:Hvalid; [|done].
  change (Unscoped.updateData (Request.body req))
    with (Scoped.updateData (Request.body req)).
  pose proof (updateData_wellTyped _ Hplain Hvalid) as Hd.
  cbn [run]. rewrite exec_findFirst, !exec_update by done.
  destruct (filter_all_owned db _ Hall) as (_ & _ & ->). cbn [fst snd].
  destruct (head _) eqn:Hhead; cbn [run fst snd];
    by rewrite ?exec_update, ?Hhead by done.
Qed.

(** C8, as the code has it.  For a caller who passes the guard and a
    store in which every resource record is the caller's, so that owner
    filtering filters nothing out, the two modules give the same response
    and the same store on GET /hello and GET /users; on GET /users/:id
    and DELETE /users/:id when the number read from the path parameter
    is a key of the id column (a 32-bit integer); on PUT /users/:id when
    it is and the name, email and role sent are non-empty strings free
    of U+0000 and the age sent is not null; on POST /register with
    string credentials whose email is free of U+0000, and on POST /login
    with such credentials unless the login succeeds, where both answer
    200 with a token signed for the same account but for "300000"
    milliseconds in one module and "1h" in the other.  On DELETE /users
    they delete the same rows, and the scoped module answers 200 with
    the count where the unscoped one answers 204 without a body. *)
Theorem modules_agree_up_to_scoping `{Collaborators} (req : Request.t)
    (user : Identity.t) (db : Db) :
  authenticated req user →
  allOwnedBy db (Identity.id user) →
  Scoped.hello req = Unscoped.hello req
  ∧ run (Scoped.get_users req) db = run (Unscoped.get_users req) db
  ∧ (keyInRange (Request.id req) →
     run (Scoped.get_user req) db = run (Unscoped.get_user req) db
     ∧ run (Scoped.delete_user req) db = run (Unscoped.delete_user req) db
     ∧ (plainUpdate (Request.body req) →
        run (Scoped.put_user req) db = run (Unscoped.put_user req) db))
  ∧ ((run (Scoped.delete_users req) db).2
     = (run (Unscoped.delete_users req) db).2
     ∧ (run (Scoped.delete_users req) db).1
       = json 200 (JObj [("deleted", JNum (Z.of_nat (length (users db))))])
     ∧ (run (Unscoped.delete_users req) db).1 = send 204)
  ∧ (∀ e p, credentials req e p → text e = true →
       run (Scoped.register req) db = run (Unscoped.register req) db
       ∧ (run (Scoped.login req) db = run (Unscoped.login req) db
          ∨ ∃ a, run (Scoped.login req) db
                 = (json 200 (JObj [("token", JStr (jwt_sign a "300000"))]), db)
                 ∧ run (Unscoped.login req) db
                   = (json 200 (JObj [("token", JStr (jwt_sign a "1h"))]), db))).
Proof.
  intros Hauth Hall.
  split; [reflexivity|].
  split; [by apply (get_users_agree req user)|].
  split.
  { intros Hkey.
    split; [by apply (get_user_agree req user)|].
    split; [by apply (delete_user_agree req user)|].
    by apply (put_user_agree req user). }
  split.
  - destruct (delete_users_differ req user db Hauth Hall)
      as (Hs & Hu & Hsdb & Hudb).
    by rewrite Hs, Hu, Hsdb, Hudb.
  - intros e p Hc Htext. split.
    + by apply (register_agree req db e p).
    + by apply (login_agree req db e p).
Qed.

Lemma modules_agree_up_to_scoping_witness :
  run (Scoped.get_user (Demo.request (Some "Bearer tokA") "13" []))
      (withUsers Demo.db [Demo.dave])
  = run (Unscoped.get_user (Demo.request (Some "Bearer tokA") "13" []))
        (withUsers Demo.db [Demo.dave]).
Proof.
  apply (modules_agree_up_to_scoping
           (Demo.request (Some "Bearer tokA") "13" []) Demo.alice
           (withUsers Demo.db [Demo.dave])).
  - exists "tokA". by vm_compute.
  - intros u Hu. apply list_elem_of_singleton in Hu as ->. reflexivity.
  - intros i Hi. vm_compute in Hi. by injection Hi as <-.
Defined.

(** C8 as it is worded fails: on a store with no resource record, where
    no owner filter can matter, DELETE /users is answered 200 with
    [{ deleted: 0 }] by the scoped module and 204 by the unscoped one. *)
Lemma delete_users_status_differs :
  ¬ (∀ (C : Collaborators) (req : Request.t) (user : Identity.t) (db : Db),
       authenticated req user →
       allOwnedBy db (Identity.id user) →
       status (run (Scoped.delete_users req) db).1
       = status (run (Unscoped.delete_users req) db).1).
Proof.
  intros claim.
  specialize (claim Demo.collaborators
                (Demo.request (Some "Bearer tokA") "" []) Demo.alice
                Prisma.empty).
  assert (Hs : status (run (Scoped.delete_users
                 (Demo.request (Some "Bearer tokA") "" [])) Prisma.empty).1
               = 200) by reflexivity.
  rewrite claim in Hs; [discriminate Hs | |].
  - exists "tokA". by vm_compute.
  - intros u Hu. by apply elem_of_nil in Hu.
Qed.

(** Further places where the modules part ways without any owner being
    involved: the body of the guard's rejections, an empty name sent to
    PUT, a store error without a code, a path parameter beyond the id
    column, and a name with U+0000. *)
Example rejection_bodies_differ :
  run (Scoped.delete_user (Demo.request None "13" [])) Demo.db
  = (Scoped.noToken, Demo.db)
  ∧ run (Unscoped.delete_user (Demo.request None "13" [])) Demo.db
    = (json 401 (message "No token provided"), Demo.db).
Proof. split; reflexivity. Qed.

Example put_empty_name_differs :
  status (run (Scoped.put_user
                 (Demo.request (Some "Bearer tokA") "13" [("name", VStr "")]))
              Demo.db).1 = 400
  ∧ status (run (Unscoped.put_user
                   (Demo.request (Some "Bearer tokA") "13" [("name", VStr "")]))
                Demo.db).1 = 200.
Proof. split; reflexivity. Qed.

Example register_number_email_differs :
  (run (Scoped.register
          (Demo.request None "" [("email", VNum 5); ("password", VStr "pw")]))
       Demo.db).1 = json 400 (message "Registration failed")
  ∧ (run (Unscoped.register
            (Demo.request None "" [("email", VNum 5); ("password", VStr "pw")]))
         Demo.db).1 = json 500 (message "Registration failed").
Proof. split; reflexivity. Qed.

Example out_of_range_id_differs :
  (run (Scoped.get_user (Demo.request (Some "Bearer tokA") "2147483648" []))
       Demo.db).1 = json 500 (message "Fetch user failed")
  ∧ (run (Unscoped.get_user (Demo.request (Some "Bearer tokA") "2147483648" []))
         Demo.db).1 = json 500 (message "Failed to fetch user").
Proof. split; reflexivity. Qed.

Example put_nul_name_differs :
  (run (Scoped.put_user
          (Demo.request (Some "Bearer tokA") "13"
             [("name", VStr (String.String "000" "x"))])) Demo.db).1
  = json 400 (message "Update user failed")
  ∧ (run (Unscoped.put_user
            (Demo.request (Some "Bearer tokA") "13"
               [("name", VStr (String.String "000" "x"))])) Demo.db).1
    = json 500 (message "Failed to update user").
Proof. split; reflexivity. Qed.


(** *** The unscoped module on the same requests

    The routes of src/api/index.js read and delete without an owner:
    GET /users/:id hands out the record of another account, and
    GET /users and DELETE /users reach every row. *)

Example unscoped_get_user_foreign :
  run (Unscoped.get_user (Demo.request (Some "Bearer tokA") "12" [])) Demo.db
  = (json 200 (User.toJson Demo.carol), Demo.db).
Proof. reflexivity. Qed.

Example unscoped_get_users_all :
  run (Unscoped.get_users (Demo.request None "" [])) Demo.db
  = (json 200 (JArr [User.toJson Demo.carol; User.toJson Demo.dave]), Demo.db).
Proof. reflexivity. Qed.

Example unscoped_delete_users_all :
  run (Unscoped.delete_users (Demo.request (Some "Bearer tokA") "" [])) Demo.db
  = (send 204, withUsers Demo.db []).
Proof. reflexivity. Qed.

(* ===================================================================== *)
(** ** Further properties of the routes *)
(* ===================================================================== *)

(** *** What validation lets through *)

(** Where the validator reads a whole number, [parseInt] reads the same. *)
Lemma numeral_parseInt s n : Validator.numeral s = Some n → parseInt s = Some n.
Proof.
  unfold Validator.numeral.
  assert (Hu : ∀ r m, (if Validator.allDigits r then digits None r else None)
                      = Some m
                      → Validator.allDigits r = true ∧ digits None r = Some m).
  { intros r m. by destruct (Validator.allDigits r). }
  destruct s as [|c r]; [done|].
  destruct (decide (c = "-"%char)) as [->|Hm].
  { intros Hs. apply fmap_Some in Hs as (m & Hs & ->).
    apply Hu in Hs as [_ Hs].
    by rewrite parseInt_minus, Hs. }
  destruct (decide (c = "+"%char)) as [->|Hp].
  { intros Hs. apply Hu in Hs as [_ Hs].
    by rewrite parseInt_plus. }
  intros Hs.
  assert (Hs' : (if Validator.allDigits (String.String c r)
                 then digits None (String.String c r) else None) = Some n).
  { destruct c as [[] [] [] [] [] [] [] []]; try exact Hs; congruence. }
  apply Hu in Hs' as [Hd Hs']. by rewrite parseInt_unsigned.
Qed.

Lemma toString_ToString v s :
  Validator.toString (Some v) = s → s ≠ "" → ToString (Some v) = s.
Proof. destruct v; cbn; congruence. Qed.

(** An age the validator accepts is an age [parseInt] reads, in range. *)
Lemma isInt_age lo hi v :
  Validator.isInt lo hi v = true ↔
  ∃ a, Validator.numeral (Validator.toString v) = Some a ∧ lo ≤ a ≤ hi.
Proof.
  unfold Validator.isInt. destruct (Validator.numeral _) as [a|]; split.
  - intros Hr. apply andb_true_iff in Hr as [Hlo Hhi].
    apply Z.leb_le in Hlo, Hhi. exists a. split; [done|lia].
  - intros (a' & [= <-] & Hr). apply andb_true_iff.
    split; apply Z.leb_le; lia.
  - done.
  - by intros (a' & ? & _).
Qed.

Lemma numeral_age v a :
  Validator.numeral (Validator.toString v) = Some a →
  parseInt (ToString v) = Some a.
Proof.
  intros Hn. destruct v as [v|]; [|done].
  rewrite (toString_ToString v (Validator.toString (Some v))); [|done|].
  - by apply numeral_parseInt.
  - intros Hempty. by rewrite Hempty in Hn.
Qed.

Lemma isString_notEmpty v :
  Validator.isString v = true ∧ Validator.notEmpty v = true ↔
  ∃ n, v = Some (VStr n) ∧ n ≠ "".
Proof.
  split.
  - intros [Hs Hn]. destruct v as [[| | |n]|]; try done. exists n.
    split; [done|]. intros ->. done.
  - intros (n & -> & Hn). split; [done|]. unfold Validator.notEmpty. cbn.
    by rewrite bool_decide_false.
Qed.

Lemma notEmpty_spec v :
  Validator.notEmpty v = true ↔ Validator.toString v ≠ "".
Proof.
  unfold Validator.notEmpty. rewrite negb_true_iff, bool_decide_eq_false. done.
Qed.

Lemma runChain_nil (c : Validator.Chain) (b : Body) :
  Validator.runChain c b = [] ↔
  Validator.skipped (Validator.optional c) (b !! Validator.field c) = true
  ∨ Forall (λ k, Validator.test k (b !! Validator.field c) = true)
           (Validator.checks c).
Proof.
  unfold Validator.runChain. destruct (Validator.skipped _ _).
  { split; [by left | done]. }
  induction (Validator.checks c) as [|k ks IH]; cbn.
  { split; [intros _; right; constructor | done]. }
  destruct (Validator.test k _) eqn:Hk; cbn.
  - rewrite IH. split.
    + intros [Hf | Hall]; [discriminate Hf|]. right. by constructor.
    + intros [Hf | Hall]; [discriminate Hf|]. right.
      by apply Forall_cons in Hall as [_ ?].
  - split; [intros Hf; discriminate Hf|].
    intros [Hf | Hall]; [discriminate Hf|].
    apply Forall_cons in Hall as [Hk' _]. congruence.
Qed.

Section Validation.
Context `{Collaborators}.

Lemma chains_nil name email age role (b : Body) :
  Validator.validationResult (Validator.chains name email age role) b = [] ↔
  (Validator.skipped name (b !! "name") = true
   ∨ Validator.isString (b !! "name") = true
     ∧ Validator.notEmpty (b !! "name") = true)
  ∧ (Validator.skipped email (b !! "email") = true
     ∨ Validator.notEmpty (b !! "email") = true
       ∧ isEmail (Validator.toString (b !! "email")) = true)
  ∧ (Validator.skipped age (b !! "age") = true
     ∨ Validator.isInt 0 125 (b !! "age") = true)
  ∧ (Validator.skipped role (b !! "role") = true
     ∨ Validator.isIn ["admin"; "user"] (b !! "role") = true).
Proof.
  unfold Validator.validationResult, Validator.chains.
  rewrite !bind_cons, !app_nil, !runChain_nil.
  cbn [Validator.field Validator.optional Validator.checks Validator.test].
  rewrite !Forall_cons, !Forall_nil. cbn. tauto.
Qed.

Lemma post_chains_nil (b : Body) :
  Validator.validationResult Scoped.post_chains b = [] ↔ acceptable b.
Proof.
  unfold Scoped.post_chains. rewrite chains_nil.
  cbn [Validator.skipped]. unfold acceptable.
  rewrite <- isString_notEmpty, <- notEmpty_spec, <- isInt_age.
  unfold Validator.isIn. rewrite bool_decide_eq_true.
  split.
  - intros ([Hf1|?] & [Hf2|[? ?]] & [Hf3|?] & [Hf4|?]);
      try discriminate. done.
  - intros (? & ? & ? & ? & ?). repeat split; by right.
Qed.

End Validation.



(** *** Valid records *)

Lemma run_allCalls (P : ∀ X, Call X → Prop) (I : Db → Prop) (h : Handler) :
  (∀ X (c : Call X) db, P X c → I db → I (exec c db).2) →
  ∀ db, allCalls P h → I db → I (run h db).2.
Proof.
  intros Hexec. induction h as [r | X c k IH]; intros db Hh Hinv; [done|].
  destruct Hh as [Hc Hk]. cbn [run]. apply IH; [done|]. by apply Hexec.
Qed.

Section Valid.
Context `{Collaborators}.

Lemma exec_validRecords {X} (c : Call X) (db : Db) :
  validated c →
  (∀ u, u ∈ users db → validRecord u) →
  ∀ u, u ∈ users (exec c db).2 → validRecord u.
Proof.
  intros Hc Hinv. destruct c; cbn [exec]; try done.
  - by destruct (int4 id).
  - by destruct (int4 id).
  - destruct (newRow _ _) as [row|] eqn:Hrow; [|done].
    case_bool_decide; [|done]. intros u Hu. cbn in Hu.
    apply elem_of_app in Hu as [Hu | Hu]; [by apply Hinv|].
    apply list_elem_of_singleton in Hu as ->. by apply (Hc (userSeq db)).
  - destruct (wellTyped data); [|done]. destruct (int4 id); [|done].
    destruct (head _) as [u0|] eqn:Hh; [|done].
    destruct (nothingToSet data); [done|].
    apply head_filter_elem in Hh as [Hu0 _].
    intros u Hu. cbn in Hu. apply elem_of_app in Hu as [Hu | Hu].
    { apply list_elem_of_filter in Hu as [_ Hu]. by apply Hinv. }
    apply list_elem_of_singleton in Hu as ->. unfold updated.
    destruct (patch data u0) as [u'|] eqn:Hp; cbn; [|by apply Hinv].
    apply (Hc u0 u'); [by apply Hinv | done].
  - destruct (int4 id); [|done].
    destruct (head _); [|done]. intros u Hu. cbn in Hu.
    apply list_elem_of_filter in Hu as [_ Hu]. by apply Hinv.
  - intros u Hu. cbn in Hu.
    apply list_elem_of_filter in Hu as [_ Hu]. by apply Hinv.
  - by destruct (asString email).
  - destruct (asString email) as [e|]; [|done]. case_bool_decide; [done|].
    by destruct (text e).
Qed.

(** What POST /users creates from an acceptable body is a valid record. *)
Lemma newUser_validated user (b : Body) :
  acceptable b → validated (user_create (Scoped.newUser user b)).
Proof.
  intros ((n & Hn & Hne) & Hemail & HisEmail & (a & Ha & Hr) & Hrole) i row Hrow.
  apply newRow_fields in Hrow as (_ & Hn' & He' & Ha' & Hr' & _ & _).
  cbn in Hn', He', Ha', Hr'.
  rewrite He' in HisEmail. rewrite Hr' in Hrole.
  assert (Hage : User.age row = a)
    by (rewrite (numeral_age _ _ Ha) in Ha'; congruence).
  unfold validRecord. rewrite Hage.
  repeat split; try done; try lia. congruence.
Qed.

Lemma put_chains_nil (b : Body) :
  Validator.validationResult Scoped.put_chains b = [] →
  (b !! "name" = None ∨ ∃ n, b !! "name" = Some (VStr n) ∧ n ≠ "")
  ∧ (b !! "email" = None
     ∨ isEmail (Validator.toString (b !! "email")) = true)
  ∧ (b !! "age" = None
     ∨ ∃ a, Validator.numeral (Validator.toString (b !! "age")) = Some a
            ∧ 0 ≤ a ≤ 125)
  ∧ (b !! "role" = None
     ∨ Validator.toString (b !! "role") ∈ ["admin"; "user"]).
Proof.
  unfold Scoped.put_chains. rewrite chains_nil. cbn [Validator.skipped].
  rewrite !bool_decide_eq_true, isString_notEmpty, isInt_age.
  unfold Validator.isIn. rewrite bool_decide_eq_true. tauto.
Qed.

Lemma patch_fields d u u' :
  patch d u = Some u' →
  setString (User.name u) (UserUpdateInput.name d) = Some (User.name u')
  ∧ setString (User.email u) (UserUpdateInput.email d) = Some (User.email u')
  ∧ setAge (User.age u) (UserUpdateInput.age d) = Some (User.age u')
  ∧ setString (User.role u) (UserUpdateInput.role d) = Some (User.role u').
Proof.
  unfold patch.
  destruct (setString (User.name u) _) as [n'|]; [|done].
  destruct (setString (User.email u) _) as [e'|]; [|done]. cbn.
  destruct (setAge (User.age u) _) as [a'|]; [|done].
  destruct (setString (User.role u) _) as [r'|]; [|done].
  cbn. by intros [= <-].
Qed.

Lemma setString_spec old v s :
  setString old v = Some s → v = None ∧ s = old ∨ v = Some (VStr s).
Proof.
  destruct v as [[| | |x]|]; cbn; try done; [|intros [= <-]; auto].
  unfold asText. cbn. destruct (text x); [|done]. intros [= <-]. auto.
Qed.

(** What PUT /users/:id changes of a valid record after validation leaves
    a valid record. *)
Lemma updateData_validated i (b : Body) :
  Validator.validationResult Scoped.put_chains b = [] →
  validated (user_update i (Scoped.updateData b)).
Proof.
  intros Hvalid u u' (Hun & Hue & Hua & Hur) Hp.
  apply put_chains_nil in Hvalid as (Hn & He & Ha & Hr).
  apply patch_fields in Hp as (Hn' & He' & Ha' & Hr').
  unfold Scoped.updateData in *.
  cbn [UserUpdateInput.name UserUpdateInput.email UserUpdateInput.age
       UserUpdateInput.role] in *.
  apply setString_spec in Hn', He', Hr'.
  unfold validRecord. repeat split.
  - destruct Hn' as [[_ ->] | Hn']; [done|].
    destruct Hn as [Hn | (n & Hn & Hne)]; congruence.
  - destruct He' as [[_ ->] | He']; [done|].
    destruct He as [He | He]; [congruence|]. by rewrite He' in He.
  - destruct Ha as [Ha | (a & Ha & Hrange)].
    + rewrite Ha in Ha'. injection Ha' as <-. lia.
    + destruct (b !! "age") as [v|] eqn:Hv; [|done].
      cbn [fmap option_fmap option_map setAge] in Ha'.
      rewrite (numeral_age _ _ Ha) in Ha'. injection Ha' as <-. lia.
  - destruct Ha as [Ha | (a & Ha & Hrange)].
    + rewrite Ha in Ha'. injection Ha' as <-. lia.
    + destruct (b !! "age") as [v|] eqn:Hv; [|done].
      cbn [fmap option_fmap option_map setAge] in Ha'.
      rewrite (numeral_age _ _ Ha) in Ha'. injection Ha' as <-. lia.
  - destruct Hr' as [[_ ->] | Hr']; [done|].
    destruct Hr as [Hr | Hr]; [congruence|]. by rewrite Hr' in Hr.
Qed.

Lemma authenticateToken_allCalls P req next :
  (∀ user, allCalls P (next user)) →
  allCalls P (Scoped.authenticateToken req next).
Proof.
  intros Hnext. unfold Scoped.authenticateToken.
  destruct (negb _); [done|]. by destruct (jwt_verify _).
Qed.

Lemma route_validated r req : allCalls (@validated _) (Scoped.route r req).
Proof.
  destruct r; cbn [Scoped.route];
    unfold Scoped.hello, Scoped.get_users, Scoped.get_user,
      Scoped.post_users, Scoped.put_user, Scoped.delete_user,
      Scoped.delete_users, Scoped.register, Scoped.login;
    try (apply authenticateToken_allCalls; intros user).
  4: { destruct (Validator.validationResult _ _) eqn:Hv; [|done].
       split; [apply newUser_validated; by apply post_chains_nil|].
       by intros [?|?]. }
  4: { destruct (parseInt _); [|done].
       destruct (Validator.validationResult _ _) eqn:Hv; [|done].
       split; [done|]. intros [[?|]|?]; try done.
       split; [by apply updateData_validated|]. by intros [?|?]. }
  all: repeat first
      [ done
      | progress cbn [allCalls validated]
      | split
      | intros [[?|]|?]
      | intros [?|?]
      | match goal with
        | |- allCalls _ (match ?x with _ => _ end) => destruct x
        | |- allCalls _ (if ?x then _ else _) => destruct x
        end ].
Qed.

End Valid.

(** In every state the scoped module reaches from the empty store, and
    after any further request, each resource record has a non-empty name,
    an email that [isEmail] accepts, an age from 0 to 125 and the role
    admin or user: POST and PUT hand the store only what their chains
    have let through. *)
Theorem reachable_records_valid `{Collaborators} (db : Db) :
  reachable db →
  (∀ u, u ∈ users db → validRecord u)
  ∧ ∀ r req u, u ∈ users (run (Scoped.route r req) db).2 → validRecord u.
Proof.
  assert (Hall : ∀ db, reachable db → ∀ u, u ∈ users db → validRecord u).
  { induction 1 as [|db' r req _ IH].
    - intros u Hu. by apply elem_of_nil in Hu.
    - apply (run_allCalls (@validated _) (λ db, ∀ u, u ∈ users db → validRecord u));
        [|apply route_validated|exact IH].
      intros X c db0. apply exec_validRecords. }
  intros Hreach. split; [by apply Hall|].
  intros r req. apply Hall. by constructor.
Qed.

Lemma reachable_records_valid_witness :
  Forall validRecord
    (users
       (run (Scoped.route PutUser
               (Demo.request (Some "Bearer tokA") "1" [("age", VStr "125")]))
          (run (Scoped.route PostUsers
                  (Demo.request (Some "Bearer tokA") ""
                     [("name", VStr "Bob"); ("email", VStr "b@x.com");
                      ("age", VNum 17); ("role", VStr "user")]))
             (run (Scoped.route Register
                     (Demo.request None ""
                        [("email", VStr "a@x.com"); ("password", VStr "pw123")]))
                Prisma.empty).2).2).2).
Proof.
  apply Forall_forall.
  refine (proj1 (reachable_records_valid _ _)).
  do 3 apply reachable_step. apply reachable_empty.
Defined.

(** *** Reads and writes stay with the owner *)

Lemma findFirst_some (db : Db) i o u0 :
  head (filter (λ u, hasId i u && owned (Some o) u) (users db)) = Some u0 →
  u0 ∈ users db ∧ User.id u0 = i ∧ User.ownerId u0 = o.
Proof.
  intros Hh. apply head_filter_elem in Hh as [Hin Hp].
  apply andb_True in Hp as [Hi Ho].
  apply hasId_spec in Hi. by apply owned_spec in Ho.
Qed.

Lemma unique_id (l : list User.t) u u0 :
  NoDup (User.id <$> l) → u ∈ l → u0 ∈ l → User.id u = User.id u0 → u = u0.
Proof.
  induction l as [|x l IH]; intros Hnd Hu Hu0 Heq.
  { by apply elem_of_nil in Hu. }
  cbn in Hnd. apply NoDup_cons in Hnd as [Hx Hnd].
  apply elem_of_cons in Hu as [-> | Hu]; apply elem_of_cons in Hu0 as [-> | Hu0].
  - done.
  - destruct Hx. rewrite Heq. apply list_elem_of_fmap. by exists u0.
  - destruct Hx. rewrite <- Heq. apply list_elem_of_fmap. by exists u.
  - by apply IH.
Qed.

(** Under unique ids, the row [findFirst] found for the caller is the only
    row with that id. *)
Lemma found_is_mine (db : Db) i o u0 :
  NoDup (User.id <$> users db) →
  head (filter (λ u, hasId i u && owned (Some o) u) (users db)) = Some u0 →
  ∀ u, u ∈ users db → User.id u = i → User.ownerId u = o.
Proof.
  intros Hnd Hh u Hu Hi. apply findFirst_some in Hh as (Hu0 & Hi0 & Ho0).
  by rewrite (unique_id (users db) u u0 Hnd Hu Hu0) by congruence.
Qed.

Lemma updated_keys d u :
  User.id (updated d u) = User.id u
  ∧ User.ownerId (updated d u) = User.ownerId u.
Proof.
  unfold updated. destruct (patch d u) as [u'|] eqn:Hp; [|done]. cbn.
  by apply patch_age in Hp as (_ & _ & _ & ? & ?).
Qed.

Lemma delete_others i o (l : list User.t) :
  (∀ u, u ∈ l → User.id u = i → User.ownerId u = o) →
  filter (λ u, User.ownerId u ≠ o) (filter (λ u, negb (hasId i u)) l)
  = filter (λ u, User.ownerId u ≠ o) l.
Proof.
  intros Hmine. rewrite list_filter_filter. apply filter_on_members.
  intros u Hu. split; [tauto|]. intros Ho. split; [done|].
  destruct (hasId i u) eqn:Hi; [|done]. destruct Ho. apply Hmine; [done|].
  apply hasId_spec. by rewrite Hi.
Qed.

Lemma update_others i d o u0 (l : list User.t) :
  (∀ u, u ∈ l → User.id u = i → User.ownerId u = o) →
  User.ownerId u0 = o →
  filter (λ u, User.ownerId u ≠ o)
         (filter (λ u, negb (hasId i u)) l ++ [updated d u0])
  = filter (λ u, User.ownerId u ≠ o) l.
Proof.
  intros Hmine Ho. rewrite filter_app, delete_others by done.
  rewrite filter_cons_False, filter_nil, app_nil_r; [done|].
  rewrite (proj2 (updated_keys d u0)). by intros ?.
Qed.

Lemma deleteMany_others o (l : list User.t) :
  filter (λ u, User.ownerId u ≠ o) (filter (λ u, negb (owned (Some o) u)) l)
  = filter (λ u, User.ownerId u ≠ o) l.
Proof.
  rewrite filter_not_owned, list_filter_filter. apply filter_on_members.
  tauto.
Qed.

(** The calls on table AuthUser leave table User alone. *)
Lemma register_users `{Collaborators} req db :
  users (run (Scoped.register req) db).2 = users db.
Proof.
  unfold Scoped.register. destruct (_ || _); [done|]. cbn [run exec].
  destruct (asString (Request.body req !! "email")) as [e|] eqn:He; [|done].
  cbn [fst snd]. destruct (head _); [done|].
  destruct (asString (Request.body req !! "password")); [|done].
  cbn [run exec]. rewrite He. case_bool_decide; [done|]. by destruct (text e).
Qed.

Lemma login_users `{Collaborators} req db :
  (run (Scoped.login req) db).2 = db.
Proof.
  unfold Scoped.login. destruct (_ || _); [done|]. cbn [run exec].
  destruct (asString (Request.body req !! "email")) as [e|] eqn:He; [|done].
  cbn [fst snd]. destruct (head _); [|done].
  destruct (asString (Request.body req !! "password")); [|done].
  by destruct (bcrypt_compare _ _).
Qed.

Lemma keepsOthers_same A (db after : Db) :
  users after = users db → keepsOthers A db after.
Proof. intros Hu. split; rewrite Hu; [done|]. by left. Qed.

Section Isolation.
Context `{Collaborators}.
Variables (req : Request.t) (user : Identity.t) (db : Db).
Hypothesis Hauth : authenticated req user.
Hypothesis Hnd : NoDup (User.id <$> users db).

Lemma post_users_keepsOthers :
  keepsOthers (Identity.id user) db (run (Scoped.post_users req) db).2.
Proof.
  unfold Scoped.post_users. rewrite (authenticateToken_next _ user) by done.
  destruct (Validator.validationResult _ _); [|by apply keepsOthers_same].
  cbn [run exec]. destruct (newRow _ _) as [row|] eqn:Hrow;
    [|by apply keepsOthers_same].
  case_bool_decide; [|by apply keepsOthers_same]. cbn [fst snd run].
  apply newRow_fields in Hrow as (_ & _ & _ & _ & _ & _ & Ho). cbn in Ho.
  split; cbn [users].
  - rewrite filter_app, filter_cons_False, filter_nil, app_nil_r; [done|].
    by intros ?.
  - intros u Hu. apply elem_of_app in Hu as [Hu | Hu]; [by left|].
    apply list_elem_of_singleton in Hu as ->. by right.
Qed.

Lemma put_user_keepsOthers :
  keepsOthers (Identity.id user) db (run (Scoped.put_user req) db).2.
Proof.
  unfold Scoped.put_user. rewrite (authenticateToken_next _ user) by done.
  destruct (parseInt _) as [i|]; [|by apply keepsOthers_same].
  destruct (Validator.validationResult _ _); [|by apply keepsOthers_same].
  cbn [run exec]. destruct (int4 i) eqn:Hi4; cbn [fst snd];
    [|by apply keepsOthers_same].
  destruct (head _) as [u0|] eqn:Hfound; [|by apply keepsOthers_same].
  cbn [run exec]. rewrite Hi4.
  destruct (wellTyped _); [|by apply keepsOthers_same].
  destruct (head (filter (λ u, hasId i u) _)) as [u1|] eqn:Hu1;
    [|by apply keepsOthers_same].
  apply head_filter_elem in Hu1 as [Hin1 Hi1]. apply hasId_spec in Hi1.
  pose proof (found_is_mine db i _ u0 Hnd Hfound) as Hmine.
  cbn [fst snd run].
  destruct (nothingToSet _); [by apply keepsOthers_same|].
  split; cbn [users withUsers].
  - apply update_others; [done|]. by apply Hmine.
  - intros u Hu. apply elem_of_app in Hu as [Hu | Hu].
    + left. by apply list_elem_of_filter in Hu as [_ Hu].
    + right. apply list_elem_of_singleton in Hu as ->.
      rewrite (proj2 (updated_keys _ u1)). by apply Hmine.
Qed.

Lemma delete_user_keepsOthers :
  keepsOthers (Identity.id user) db (run (Scoped.delete_user req) db).2.
Proof.
  unfold Scoped.delete_user. rewrite (authenticateToken_next _ user) by done.
  destruct (parseInt _) as [i|]; [|by apply keepsOthers_same].
  cbn [run exec]. destruct (int4 i) eqn:Hi4; cbn [fst snd];
    [|by apply keepsOthers_same].
  destruct (head _) as [u0|] eqn:Hfound; [|by apply keepsOthers_same].
  cbn [run exec]. rewrite Hi4.
  destruct (head (filter (λ u, hasId i u) _)); [|by apply keepsOthers_same].
  cbn [fst snd run]. split; cbn [users withUsers].
  - apply delete_others. by apply (found_is_mine db i _ u0).
  - intros u Hu. apply list_elem_of_filter in Hu as [_ Hu]. by left.
Qed.

Lemma delete_users_keepsOthers :
  keepsOthers (Identity.id user) db (run (Scoped.delete_users req) db).2.
Proof.
  unfold Scoped.delete_users. rewrite (authenticateToken_next _ user) by done.
  cbn [run exec fst snd]. split; cbn [users withUsers].
  - apply deleteMany_others.
  - intros u Hu. apply list_elem_of_filter in Hu as [_ Hu]. by left.
Qed.

End Isolation.

(** Whatever route of the scoped module a caller authenticated as account
    A requests, on a store with unique record ids: the resource records
    of every other account are afterwards exactly what they were, and
    every record that is new or changed belongs to A.  No request changes
    or removes another account's record, and none creates a record for
    another account or hands one over. *)
Theorem writes_stay_with_owner `{Collaborators} (r : Route) (req : Request.t)
    (user : Identity.t) (db : Db) :
  authenticated req user →
  NoDup (User.id <$> users db) →
  filter (λ u, User.ownerId u ≠ Identity.id user)
         (users (run (Scoped.route r req) db).2)
  = filter (λ u, User.ownerId u ≠ Identity.id user) (users db)
  ∧ ∀ u, u ∈ users (run (Scoped.route r req) db).2 →
         u ∈ users db ∨ User.ownerId u = Identity.id user.
Proof.
  intros Hauth Hnd.
  change (keepsOthers (Identity.id user) db (run (Scoped.route r req) db).2).
  destruct r; cbn [Scoped.route].
  - by apply keepsOthers_same.
  - apply keepsOthers_same. unfold Scoped.get_users.
    by rewrite (authenticateToken_next _ user).
  - apply keepsOthers_same. unfold Scoped.get_user.
    rewrite (authenticateToken_next _ user) by done.
    destruct (parseInt _) as [i|]; [|done]. cbn [run exec].
    destruct (int4 i); cbn [fst snd]; [|done]. by destruct (head _).
  - by apply post_users_keepsOthers.
  - by apply put_user_keepsOthers.
  - by apply delete_user_keepsOthers.
  - by apply delete_users_keepsOthers.
  - apply keepsOthers_same, register_users.
  - apply keepsOthers_same. by rewrite login_users.
Qed.

Lemma writes_stay_with_owner_witness :
  filter (λ u, User.ownerId u ≠ 1)
         (users (run (Scoped.route PutUser
                        (Demo.request (Some "Bearer tokA") "13"
                           [("name", VStr "David")])) Demo.db).2)
  = [Demo.carol].
Proof.
  apply (writes_stay_with_owner PutUser
           (Demo.request (Some "Bearer tokA") "13" [("name", VStr "David")])
           Demo.alice Demo.db).
  - exists "tokA". by vm_compute.
  - cbn. apply NoDup_cons. split.
    + intros Hin. apply list_elem_of_singleton in Hin. discriminate Hin.
    + apply NoDup_singleton.
Defined.

(** GET /users/:id.  For a caller who passes the guard and a path
    parameter from which [parseInt] reads a key of the id column (a
    32-bit integer), the handler makes the single call [user.findFirst]
    and leaves the store as it was; it answers either 404, and then no
    record with that id is the caller's, or 200 with a record of the store
    that has that id and the caller as its owner. *)
Theorem get_user_reads_own `{Collaborators} (req : Request.t)
    (user : Identity.t) (id : Z) (db : Db) :
  authenticated req user →
  parseInt (Request.id req) = Some id →
  int4 id = true →
  (run (Scoped.get_user req) db).2 = db
  ∧ calls (Scoped.get_user req) db = ["user.findFirst"]
  ∧ ((run (Scoped.get_user req) db).1 = notFound
     ∧ notOwned db id (Identity.id user)
     ∨ ∃ u, u ∈ users db ∧ User.id u = id
            ∧ User.ownerId u = Identity.id user
            ∧ (run (Scoped.get_user req) db).1 = json 200 (User.toJson u)).
Proof.
  intros Hauth Hid Hrange. unfold Scoped.get_user.
  rewrite (authenticateToken_next _ user), Hid by done.
  cbn [run calls callName]. rewrite exec_findFirst by done. cbn [fst snd].
  destruct (head _) as [u|] eqn:Hh; cbn [run calls fst snd].
  - split; [done|]. split; [done|]. right. exists u.
    apply findFirst_some in Hh as (? & ? & ?). done.
  - split; [done|]. split; [done|]. left. split; [done|].
    intros u Hu Hi Ho.
    apply (head_filter_none _ _ Hh u Hu). apply andb_True. split.
    + by apply hasId_spec.
    + by apply owned_spec.
Qed.

Lemma get_user_reads_own_witness :
  (run (Scoped.get_user (Demo.request (Some "Bearer tokA") "13" [])) Demo.db).2
  = Demo.db.
Proof.
  apply (get_user_reads_own
           (Demo.request (Some "Bearer tokA") "13" []) Demo.alice 13 Demo.db).
  - exists "tokA". by vm_compute.
  - reflexivity.
  - reflexivity.
Defined.

(** Beyond the id column the store raises, and the handler answers 500. *)
Example get_user_out_of_range :
  run (Scoped.get_user (Demo.request (Some "Bearer tokA") "2147483648" []))
      Demo.db
  = (json 500 (message "Fetch user failed"), Demo.db).
Proof. reflexivity. Qed.

(** *** Round trips *)

Lemma filter_fresh_id (l : list User.t) i (P : User.t → bool) :
  (∀ u, u ∈ l → User.id u < i) →
  filter (λ u, hasId i u && P u) l = [].
Proof.
  intros Hlt. apply filter_none. intros u Hu Hp.
  apply andb_True in Hp as [Hi _]. apply hasId_spec in Hi.
  specialize (Hlt u Hu). lia.
Qed.

Section RoundTrips.
Context `{Collaborators}.

(** What a POST /users answered with 201 has done. *)
Lemma post_users_created req user db :
  authenticated req user →
  status (run (Scoped.post_users req) db).1 = 201 →
  ∃ row,
    run (Scoped.post_users req) db
    = (json 201 (User.toJson row),
       {| users := users db ++ [row]; authUsers := authUsers db;
          userSeq := userSeq db + 1; authUserSeq := authUserSeq db |})
    ∧ User.id row = userSeq db ∧ User.ownerId row = Identity.id user.
Proof.
  intros Hauth. unfold Scoped.post_users.
  rewrite (authenticateToken_next _ user) by done.
  destruct (Validator.validationResult _ _); [|by intros [=]].
  cbn [run exec].
  destruct (newRow _ _) as [row|] eqn:Hrow; cbn [fst snd run];
    [|intros Hs; by apply handlePrismaError_status in Hs].
  case_bool_decide; cbn [fst snd run];
    [|intros Hs; by apply handlePrismaError_status in Hs].
  intros _. exists row.
  by apply newRow_fields in Hrow as (? & _ & _ & _ & _ & _ & ?).
Qed.

Lemma handlePrismaError_not_OK err action :
  status (Scoped.handlePrismaError err action) ≠ 200.
Proof.
  unfold Scoped.handlePrismaError. case_bool_decide; [done|].
  by destruct (truthy _).
Qed.

(** What a PUT /users/:id answered with 200 has done. *)
Lemma put_user_updated req user i db :
  authenticated req user →
  parseInt (Request.id req) = Some i →
  status (run (Scoped.put_user req) db).1 = 200 →
  ∃ u0 u1,
    head (filter (λ u, hasId i u && owned (Some (Identity.id user)) u) (users db))
    = Some u0
    ∧ head (filter (λ u, hasId i u) (users db)) = Some u1
    ∧ int4 i = true
    ∧ run (Scoped.put_user req) db
      = (json 200 (User.toJson
                     (updated (Scoped.updateData (Request.body req)) u1)),
         if nothingToSet (Scoped.updateData (Request.body req)) then db
         else
           withUsers db
             (filter (λ u, negb (hasId i u)) (users db)
              ++ [updated (Scoped.updateData (Request.body req)) u1])).
Proof.
  intros Hauth Hid. unfold Scoped.put_user.
  rewrite (authenticateToken_next _ user), Hid by done.
  destruct (Validator.validationResult _ _); [|by intros [=]].
  cbn [run exec]. destruct (int4 i) eqn:Hi4; cbn [fst snd run];
    [|intros Hs; by apply handlePrismaError_not_OK in Hs].
  destruct (head _) as [u0|] eqn:Hfound; [|by intros [=]].
  cbn [run exec]. rewrite Hi4. destruct (wellTyped _); cbn [fst snd run];
    [|intros Hs; by apply handlePrismaError_not_OK in Hs].
  destruct (head (filter (λ u, hasId i u) _)) as [u1|] eqn:Hu1;
    cbn [fst snd run];
    [|intros Hs; by apply handlePrismaError_not_OK in Hs].
  intros _. by exists u0, u1.
Qed.

End RoundTrips.

(** POST /users then GET /users/:id.  When a caller's POST /users is
    answered 201 on a store whose record ids lie below the next value of
    the sequence, the caller's GET /users/:id for the id just drawn
    answers 200 with the very body of the 201, and reads only. *)
Theorem created_record_is_readable `{Collaborators} (post get : Request.t)
    (user : Identity.t) (db : Db) :
  authenticated post user →
  authenticated get user →
  (∀ u, u ∈ users db → User.id u < userSeq db) →
  status (run (Scoped.post_users post) db).1 = 201 →
  parseInt (Request.id get) = Some (userSeq db) →
  let after := (run (Scoped.post_users post) db).2 in
  status (run (Scoped.get_user get) after).1 = 200
  ∧ body (run (Scoped.get_user get) after).1
    = body (run (Scoped.post_users post) db).1
  ∧ (run (Scoped.get_user get) after).2 = after.
Proof.
  intros Hpost Hget Hlt Hs Hid after. subst after.
  destruct (post_users_created post user db Hpost Hs) as (row & -> & Hi & Ho).
  cbn [fst snd]. unfold Scoped.get_user.
  rewrite (authenticateToken_next _ user), Hid by done.
  cbn [run]. rewrite exec_findFirst by (rewrite <- Hi; apply id_in_range).
  cbn [fst snd users]. rewrite filter_app.
  rewrite (filter_fresh_id (users db) (userSeq db)
             (λ u, owned (Some (Identity.id user)) u)) by done.
  rewrite filter_cons_True, filter_nil.
  - done.
  - apply andb_True. split; [by apply hasId_spec | by apply owned_spec].
Qed.

Lemma created_record_is_readable_witness :
  body (run (Scoped.get_user (Demo.request (Some "Bearer tokA") "14" []))
          (run (Scoped.post_users
                  (Demo.request (Some "Bearer tokA") ""
                     [("name", VStr "Bob"); ("email", VStr "b@x.com");
                      ("age", VNum 17); ("role", VStr "user")])) Demo.db).2).1
  = body (run (Scoped.post_users
                 (Demo.request (Some "Bearer tokA") ""
                    [("name", VStr "Bob"); ("email", VStr "b@x.com");
                     ("age", VNum 17); ("role", VStr "user")])) Demo.db).1.
Proof.
  apply (created_record_is_readable
           (Demo.request (Some "Bearer tokA") ""
              [("name", VStr "Bob"); ("email", VStr "b@x.com");
               ("age", VNum 17); ("role", VStr "user")])
           (Demo.request (Some "Bearer tokA") "14" []) Demo.alice Demo.db).
  - exists "tokA". by vm_compute.
  - exists "tokA". by vm_compute.
  - intros u Hu.
    apply elem_of_cons in Hu as [-> | Hu]; [by vm_compute|].
    apply elem_of_cons in Hu as [-> | Hu]; [by vm_compute|].
    by apply elem_of_nil in Hu.
  - reflexivity.
  - reflexivity.
Defined.

(** PUT /users/:id then GET /users/:id.  When a caller's PUT is answered
    200 on a store with unique record ids, the caller's GET for the same
    id answers with the very response of the PUT, and reads only. *)
Theorem updated_record_is_readable `{Collaborators} (put get : Request.t)
    (user : Identity.t) (id : Z) (db : Db) :
  authenticated put user →
  authenticated get user →
  parseInt (Request.id put) = Some id →
  parseInt (Request.id get) = Some id →
  NoDup (User.id <$> users db) →
  status (run (Scoped.put_user put) db).1 = 200 →
  let after := (run (Scoped.put_user put) db).2 in
  (run (Scoped.get_user get) after).1 = (run (Scoped.put_user put) db).1
  ∧ (run (Scoped.get_user get) after).2 = after.
Proof.
  intros Hput Hget Hidp Hidg Hnd Hs after. subst after.
  destruct (put_user_updated put user id db Hput Hidp Hs)
    as (u0 & u1 & Hu0 & Hu1 & Hrange & ->).
  cbn [fst snd]. unfold Scoped.get_user.
  rewrite (authenticateToken_next _ user), Hidg by done.
  cbn [run]. rewrite exec_findFirst by done.
  destruct (nothingToSet _) eqn:Hnothing.
  { rewrite (updated_nothing _ _ Hnothing). cbn [fst snd].
    destruct (findFirst_some _ _ _ _ Hu0) as (Hin0 & Hi0 & _).
    apply head_filter_elem in Hu1 as [Hin1 Hi1]. apply hasId_spec in Hi1.
    rewrite Hu0. cbn [run fst].
    by rewrite (unique_id (users db) u0 u1 Hnd Hin0 Hin1) by congruence. }
  cbn [fst snd users withUsers].
  apply findFirst_some in Hu0 as (Hin0 & Hi0 & Ho0).
  apply head_filter_elem in Hu1 as [Hin1 Hi1]. apply hasId_spec in Hi1.
  assert (Heq : u0 = u1) by (apply (unique_id (users db)); [done..|congruence]).
  subst u1. destruct (updated_keys (Scoped.updateData (Request.body put)) u0)
    as [Hi' Ho'].
  rewrite filter_app, filter_cons_True, filter_nil.
  2: { apply andb_True. split; [apply hasId_spec | apply owned_spec]; congruence. }
  rewrite (filter_none (λ u, hasId id u && owned (Some (Identity.id user)) u)).
  - done.
  - intros u Hu Hp. apply list_elem_of_filter in Hu as [Hne _].
    apply andb_True in Hp as [Hp _]. by destruct (hasId id u).
Qed.

Lemma updated_record_is_readable_witness :
  (run (Scoped.get_user (Demo.request (Some "Bearer tokA") "13" []))
     (run (Scoped.put_user
             (Demo.request (Some "Bearer tokA") "13" [("age", VNum 18)]))
        Demo.db).2).1
  = (run (Scoped.put_user
            (Demo.request (Some "Bearer tokA") "13" [("age", VNum 18)]))
       Demo.db).1.
Proof.
  apply (updated_record_is_readable
           (Demo.request (Some "Bearer tokA") "13" [("age", VNum 18)])
           (Demo.request (Some "Bearer tokA") "13" []) Demo.alice 13 Demo.db).
  - exists "tokA". by vm_compute.
  - exists "tokA". by vm_compute.
  - reflexivity.
  - reflexivity.
  - cbn. apply NoDup_cons. split.
    + intros Hin. apply list_elem_of_singleton in Hin. discriminate Hin.
    + apply NoDup_singleton.
  - reflexivity.
Defined.

(** DELETE /users/:id.  When the caller owns the record with that id (ids
    being unique), the handler answers 204 and removes that record and no
    other; a GET or a second DELETE for the same id is then answered
    404. *)
Theorem delete_user_removes `{Collaborators} (req : Request.t)
    (user : Identity.t) (id : Z) (db : Db) (u0 : User.t) :
  authenticated req user →
  parseInt (Request.id req) = Some id →
  NoDup (User.id <$> users db) →
  u0 ∈ users db → User.id u0 = id → User.ownerId u0 = Identity.id user →
  let after := withUsers db (filter (λ u, User.id u ≠ id) (users db)) in
  run (Scoped.delete_user req) db = (send 204, after)
  ∧ (∀ u, u ∈ users after ↔ u ∈ users db ∧ u ≠ u0)
  ∧ run (Scoped.get_user req) after = (notFound, after)
  ∧ run (Scoped.delete_user req) after = (notFound, after).
Proof.
  intros Hauth Hid Hnd Hin Hi Ho after.
  assert (Hrange : int4 id = true) by (rewrite <- Hi; apply id_in_range).
  assert (Hgone : notOwned after id (Identity.id user)).
  { intros u Hu Hu'. cbn in Hu. by apply list_elem_of_filter in Hu as [? _]. }
  split; [|split; [|split]].
  - unfold Scoped.delete_user.
    rewrite (authenticateToken_next _ user), Hid by done.
    cbn [run]. rewrite exec_findFirst by done. cbn [fst snd].
    destruct (head _) eqn:Hfound.
    2: { exfalso. apply (head_filter_none _ _ Hfound u0 Hin).
         apply andb_True. split; [by apply hasId_spec | by apply owned_spec]. }
    cbn [run]. rewrite exec_delete by done.
    destruct (head (filter (λ u, hasId id u) _)) eqn:Hfound'.
    2: { exfalso. apply (head_filter_none _ _ Hfound' u0 Hin).
         by apply hasId_spec. }
    cbn [fst snd run]. do 2 f_equal. apply list_filter_iff.
    intros u. rewrite <- hasId_spec. destruct (hasId id u); cbn; tauto.
  - intros u. cbn. rewrite list_elem_of_filter. split.
    + intros [Hne Hu]. split; [done|]. intros ->. done.
    + intros [Hu Hne]. split; [|done]. intros Heq. destruct Hne.
      apply (unique_id (users db)); [done..|congruence].
  - by apply (get_user_not_mine req user id).
  - by apply (delete_user_not_mine req user id).
Qed.

Lemma delete_user_removes_witness :
  run (Scoped.delete_user (Demo.request (Some "Bearer tokA") "13" [])) Demo.db
  = (send 204, withUsers Demo.db [Demo.carol]).
Proof.
  apply (delete_user_removes
           (Demo.request (Some "Bearer tokA") "13" []) Demo.alice 13 Demo.db
           Demo.dave).
  - exists "tokA". by vm_compute.
  - reflexivity.
  - cbn. apply NoDup_cons. split.
    + intros Hin. apply list_elem_of_singleton in Hin. discriminate Hin.
    + apply NoDup_singleton.
  - apply list_elem_of_further, list_elem_of_here.
  - reflexivity.
  - reflexivity.
Defined.

(** *** From registration to the guard *)

Lemma findUnique_new (db : Db) e (a : AuthUser.t) :
  e ∉ emails db → AuthUser.email a = e →
  head (filter (λ a, byEmail e a) (authUsers db ++ [a])) = Some a.
Proof.
  intros Hnot He. rewrite filter_app.
  rewrite (filter_none _ (authUsers db)).
  - rewrite filter_cons_True; [done|]. by apply byEmail_spec.
  - intros x Hx Hb. apply byEmail_spec in Hb. destruct Hnot.
    unfold emails. apply list_elem_of_fmap. by exists x.
Qed.

(** POST /register, POST /login, GET /users.  Registering an email that
    has no account and is free of U+0000, with a password whose hash
    bcrypt verifies, answers 201 and adds one account with the next id
    and the hash of the password; a login with the same credentials then
    answers 200 with a token signed for that id and email; and, the keys
    of the store being in order, the list of resource records of the new
    account is empty. *)
Theorem registered_account_logs_in `{Collaborators} (req : Request.t) (db : Db)
    (e p : string) :
  credentials req e p →
  e ∉ emails db →
  text e = true →
  bcrypt_compare p (bcrypt_hash p) = true →
  let identity := {| Identity.id := authUserSeq db; Identity.email := e |} in
  let account := {| AuthUser.id := authUserSeq db; AuthUser.email := e;
                    AuthUser.passwordHash := bcrypt_hash p |} in
  let after := {| users := users db; authUsers := authUsers db ++ [account];
                  userSeq := userSeq db;
                  authUserSeq := authUserSeq db + 1 |} in
  run (Scoped.register req) db
  = (json 201 (JObj [("message", JStr "User registered"); ("email", JStr e)]),
     after)
  ∧ run (Scoped.login req) after
    = (json 200 (JObj [("token", JStr (jwt_sign identity "300000"))]), after)
  ∧ (∀ get, keysInvariant db → authenticated get identity →
            run (Scoped.get_users get) after = (json 200 (JArr []), after)).
Proof.
  intros Hc Hnot Htext Hbcrypt identity account after.
  subst after account identity.
  pose proof (credentials_pass _ _ _ Hc) as Hpass.
  destruct Hc as (Hemail & Hpassword & _).
  split; [|split].
  - unfold Scoped.register. rewrite Hpass, Hemail, Hpassword.
    cbn [run]. rewrite findUnique_email. cbn [fst snd].
    rewrite findUnique_unknown by done. cbn [asString run exec].
    rewrite bool_decide_false by done. by rewrite Htext.
  - unfold Scoped.login. rewrite Hpass, Hemail, Hpassword.
    cbn [run]. rewrite findUnique_email. cbn [fst snd authUsers].
    rewrite findUnique_new by done.
    cbn [asString AuthUser.passwordHash]. by rewrite Hbcrypt.
  - intros get (_ & _ & _ & Halt & _ & Hfk) Hget. unfold Scoped.get_users.
    rewrite (authenticateToken_next _ _ _ Hget).
    cbn [run exec fst snd users]. rewrite filter_none; [done|].
    intros u Hu Ho. apply owned_spec in Ho. cbn in Ho.
    specialize (Hfk u Hu). apply list_elem_of_fmap in Hfk as (a & Ha & Hin).
    specialize (Halt a Hin). lia.
Qed.

Lemma registered_account_logs_in_witness :
  run (@Scoped.login Session.collaborators
         (Demo.request None ""
            [("email", VStr "a@x.com"); ("password", VStr "pw123")]))
      (run (@Scoped.register Session.collaborators
              (Demo.request None ""
                 [("email", VStr "a@x.com"); ("password", VStr "pw123")]))
         Prisma.empty).2
  = (json 200 (JObj [("token", JStr "tokA")]),
     {| users := [];
        authUsers := [ {| AuthUser.id := 1; AuthUser.email := "a@x.com";
                          AuthUser.passwordHash := "$2b$10$pw123" |} ];
        userSeq := 1; authUserSeq := 2 |}).
Proof.
  apply (@registered_account_logs_in Session.collaborators
           (Demo.request None ""
              [("email", VStr "a@x.com"); ("password", VStr "pw123")])
           Prisma.empty "a@x.com" "pw123").
  - by vm_compute.
  - intros Hin. by apply elem_of_nil in Hin.
  - reflexivity.
  - reflexivity.
Defined.

(** An email with U+0000 is not stored: the registration is answered 400
    and adds no account. *)
Example register_nul_email :
  run (Scoped.register
         (Demo.request None ""
            [("email", VStr (String.String "000" "@x.com"));
             ("password", VStr "pw123")])) Demo.db
  = (json 400 (message "Registration failed"), Demo.db).
Proof. reflexivity. Qed.

(** The token of that login, sent back as "Bearer tokA", passes the guard
    as the account registered. *)
Example session_token_authenticates :
  @authenticated Session.collaborators
    (Demo.request (Some "Bearer tokA") "" []) Demo.alice.
Proof. exists "tokA". by vm_compute. Qed.

(** *** The guard and who is behind it *)

(** The guard reads what follows the first space of the header, whatever
    stands before it: on every guarded route of the scoped module a
    request with the header "<word> <token>", the word free of spaces and
    the token one that verifies, is handled exactly as with
    "Bearer <token>". *)
Theorem guard_ignores_scheme `{Collaborators} (r : Route) (req : Request.t)
    (scheme token : string) (user : Identity.t) :
  protected r = true →
  scheme ≠ "" → split " " scheme = [scheme] →
  token ≠ "" → split " " token = [token] →
  jwt_verify token = Some user →
  Request.authorization req = Some (scheme +:+ " " +:+ token) →
  Scoped.route r req
  = Scoped.route r {| Request.authorization := Some ("Bearer " +:+ token);
                      Request.id := Request.id req;
                      Request.body := Request.body req |}.
Proof.
  intros Hr Hs Hword Hne Htoken Hv Hh.
  assert (Hauth : authenticated req user)
    by by apply (any_scheme_authenticates req scheme token).
  assert (Hbearer : authenticated
            {| Request.authorization := Some ("Bearer " +:+ token);
               Request.id := Request.id req;
               Request.body := Request.body req |} user)
    by by apply (any_scheme_authenticates _ "Bearer" token).
  destruct r; try discriminate Hr; cbn [Scoped.route];
    unfold Scoped.get_users, Scoped.get_user, Scoped.post_users,
      Scoped.put_user, Scoped.delete_user, Scoped.delete_users;
    by rewrite (authenticateToken_next _ user _ Hauth),
         (authenticateToken_next _ user _ Hbearer).
Qed.

Lemma guard_ignores_scheme_witness :
  Scoped.route DeleteUsers (Demo.request (Some "Basic tokA") "" [])
  = Scoped.route DeleteUsers (Demo.request (Some "Bearer tokA") "" []).
Proof.
  apply (guard_ignores_scheme DeleteUsers
           (Demo.request (Some "Basic tokA") "" []) "Basic" "tokA" Demo.alice);
    by vm_compute.
Defined.

(** The unscoped module asks who calls and then does not look: on its
    guarded routes PUT /users/:id, DELETE /users/:id and DELETE /users,
    two requests that pass the guard, as whatever accounts, and agree in
    path parameter and body are the same handler; in particular each of
    these routes treats the records of every account alike. *)
Theorem unscoped_ignores_identity `{Collaborators} (req1 req2 : Request.t)
    (user1 user2 : Identity.t) :
  authenticated req1 user1 →
  authenticated req2 user2 →
  Request.id req1 = Request.id req2 →
  Request.body req1 = Request.body req2 →
  Unscoped.put_user req1 = Unscoped.put_user req2
  ∧ Unscoped.delete_user req1 = Unscoped.delete_user req2
  ∧ Unscoped.delete_users req1 = Unscoped.delete_users req2
  ∧ ∀ db, users (run (Unscoped.delete_users req1) db).2 = [].
Proof.
  intros H1 H2 Hid Hbody.
  unfold Unscoped.put_user, Unscoped.delete_user, Unscoped.delete_users.
  rewrite !(unscoped_authenticateToken_next _ user1 _ H1),
    !(unscoped_authenticateToken_next _ user2 _ H2), Hid, Hbody.
  repeat split. intros db. cbn [run exec fst snd].
  destruct db as [us accounts useq aseq]. cbn [withUsers users].
  apply filter_none. intros u _. cbn. tauto.
Qed.

Lemma unscoped_ignores_identity_witness :
  Unscoped.delete_user (Demo.request (Some "Bearer tokA") "12" [])
  = Unscoped.delete_user (Demo.request (Some "Bearer tokB") "12" []).
Proof.
  apply (unscoped_ignores_identity
           (Demo.request (Some "Bearer tokA") "12" [])
           (Demo.request (Some "Bearer tokB") "12" []) Demo.alice Demo.bob).
  - exists "tokA". by vm_compute.
  - exists "tokB". by vm_compute.
  - reflexivity.
  - reflexivity.
Defined.
